(** * Documentation generator and repository sync helper

    A shallow embedding of [.github/scripts/generate-docs.js] (a Node
    script) and of the PowerShell function [Sync-GitRepo], together with
    the properties of the two programs.

    Conventions of the embedding.
    - A JavaScript string is a [string]; one character stands for one
      UTF-16 code unit, so [js_length] is the [.length] property.
    - Lengths and thresholds are in [N].
    - An object literal is the list of its own properties; a property read
      goes on to [Object.prototype], as in JavaScript.
    - Node's [path] module is the POSIX one, written out as far as the
      script uses it ([join], [extname], [dirname]).
    - The script is asynchronous but strictly sequential (every promise is
      awaited at once), so it is embedded in a state-and-exception monad
      [M]: the state is the file system together with the list of the
      effects performed so far, an exception is a thrown [Error] (kept as
      its [message]).
    - The file system of the state is flat: a map from the paths of the
      files to their contents, and the set of the directories that exist.
    - Everything outside the script (environment variables, the output of
      [git], the result of [glob], the chat-completion service, failures of
      [mkdir] and [writeFile], the clock) is a field of [World].
    - The constructor of the client of the [openai] package is written out
      as far as it can throw.
    - [console.log] and [console.error] are not modelled.
    - [Sync-GitRepo] is a block of commands run on a [Host], which says for
      each command whether it completes or raises a terminating error. *)

From Stdlib Require Import Ascii String NArith List Lia Bool.
From stdpp Require Import base option list strings gmap pretty.

Local Open Scope N_scope.

(* ===================================================================== *)
(** ** JavaScript strings *)
(* ===================================================================== *)

Definition js_length (s : string) : N := N.of_nat (String.length s).

(** [s.substring(0, n)]. *)
Fixpoint js_substring0 (n : N) (s : string) : string :=
  match s with
  | EmptyString => EmptyString
  | String c s' => if n =? 0 then EmptyString else String c (js_substring0 (N.pred n) s')
  end.

Definition nl : string := String "010"%char EmptyString.

(** White space removed by [String.prototype.trim], among the code units
    below 256: TAB, LF, VT, FF, CR, SPACE and NBSP. *)
Definition js_is_space (c : ascii) : bool :=
  match c with
  | "009" | "010" | "011" | "012" | "013" | " " | "160" => true
  | _ => false
  end%char.

Fixpoint drop_space (s : string) : string :=
  match s with
  | EmptyString => EmptyString
  | String c s' => if js_is_space c then drop_space s' else s
  end.

(** [s.trim()]. *)
Definition js_trim (s : string) : string :=
  String.rev (drop_space (String.rev (drop_space s))).

(** [s.split(sep)] for a one-character separator: the pieces between the
    separators, empty pieces included; never the empty list. *)
Fixpoint js_split (sep : ascii) (s : string) : list string :=
  match s with
  | EmptyString => [EmptyString]
  | String c s' =>
      if Ascii.eqb c sep then EmptyString :: js_split sep s'
      else match js_split sep s' with
           | [] => [String c EmptyString]
           | piece :: pieces => String c piece :: pieces
           end
  end.

Fixpoint js_join (sep : string) (l : list string) : string :=
  match l with
  | [] => EmptyString
  | [x] => x
  | x :: l' => x +:+ sep +:+ js_join sep l'
  end.

(** Truthiness of a string: every string but the empty one. *)
Definition str_truthy (s : string) : bool := negb (String.eqb s EmptyString).

(* ===================================================================== *)
(** ** JavaScript values and plain objects *)
(* ===================================================================== *)

(** The values a property read on an object literal of strings can give:
    an own string, a built-in function or the prototype object inherited
    from [Object.prototype], or [undefined]. *)
Inductive jsval : Type :=
  | JStr (s : string)
  | JNative (name : string)
  | JObjectPrototype
  | JUndefined.

Definition js_truthy (v : jsval) : bool :=
  match v with
  | JStr s => str_truthy s
  | JNative _ | JObjectPrototype => true
  | JUndefined => false
  end.

(** Conversion to a string, as a template literal does it. *)
Definition js_toString (v : jsval) : string :=
  match v with
  | JStr s => s
  | JNative name => "function " +:+ name +:+ "() { [native code] }"
  | JObjectPrototype => "[object Object]"
  | JUndefined => "undefined"
  end.

(** [a || b]. *)
Definition js_or (a b : jsval) : jsval := if js_truthy a then a else b.

(** The properties every object literal inherits from [Object.prototype]. *)
Definition object_prototype : list (string * jsval) :=
  [ ("constructor", JNative "Object");
    ("__defineGetter__", JNative "__defineGetter__");
    ("__defineSetter__", JNative "__defineSetter__");
    ("hasOwnProperty", JNative "hasOwnProperty");
    ("__lookupGetter__", JNative "__lookupGetter__");
    ("__lookupSetter__", JNative "__lookupSetter__");
    ("isPrototypeOf", JNative "isPrototypeOf");
    ("propertyIsEnumerable", JNative "propertyIsEnumerable");
    ("toString", JNative "toString");
    ("valueOf", JNative "valueOf");
    ("__proto__", JObjectPrototype);
    ("toLocaleString", JNative "toLocaleString") ].

Fixpoint assoc (key : string) (props : list (string * jsval)) : option jsval :=
  match props with
  | [] => None
  | (k, v) :: props' => if String.eqb k key then Some v else assoc key props'
  end.

(** [obj[key]] on an object literal with own properties [own]: the own
    property, else the inherited one, else [undefined]. *)
Definition js_get (own : list (string * jsval)) (key : string) : jsval :=
  match assoc key own with
  | Some v => v
  | None => default JUndefined (assoc key object_prototype)
  end.

(* ===================================================================== *)
(** ** Node's [path] module (POSIX flavour) *)
(* ===================================================================== *)

Module path.

Definition sep : ascii := "/"%char.

Definition dotdot : string := "..".

(** One step of [normalizeString] on the stack of the segments kept so
    far (innermost first): empty and [.] segments vanish, [..] removes
    the segment before it, unless there is none or it is [..] itself. *)
Definition normalize_step (allowAboveRoot : bool) (stack : list string) (seg : string)
  : list string :=
  if String.eqb seg "" || String.eqb seg "." then stack
  else if String.eqb seg dotdot then
    match stack with
    | top :: stack' =>
        if String.eqb top dotdot
        then (if allowAboveRoot then dotdot :: stack else stack)
        else stack'
    | [] => if allowAboveRoot then [dotdot] else []
    end
  else seg :: stack.

Definition normalizeString (p : string) (allowAboveRoot : bool) : string :=
  js_join "/" (rev (fold_left (normalize_step allowAboveRoot) (js_split sep p) [])).

Definition starts_with_sep (p : string) : bool :=
  match p with String c _ => Ascii.eqb c sep | EmptyString => false end.

Definition ends_with_sep (p : string) : bool := starts_with_sep (String.rev p).

(** [path.normalize(p)]. *)
Definition normalize (p : string) : string :=
  if String.eqb p "" then "."
  else
    let isAbsolute := starts_with_sep p in
    let trailingSeparator := ends_with_sep p in
    let q := normalizeString p (negb isAbsolute) in
    if String.eqb q "" then
      (if isAbsolute then "/" else if trailingSeparator then "./" else ".")
    else
      let q := if trailingSeparator then q +:+ "/" else q in
      if isAbsolute then "/" +:+ q else q.

(** [path.join(a, b)]: the non-empty arguments joined by [/], normalized. *)
Definition join (a b : string) : string :=
  match String.eqb a "", String.eqb b "" with
  | true, true => "."
  | true, false => normalize b
  | false, true => normalize a
  | false, false => normalize (a +:+ "/" +:+ b)
  end.

Fixpoint drop_seps (s : string) : string :=
  match s with
  | String c s' => if Ascii.eqb c sep then drop_seps s' else s
  | EmptyString => EmptyString
  end.

(** The characters before the first separator, and the rest from that
    separator on. *)
Fixpoint span_segment (s : string) : string * string :=
  match s with
  | EmptyString => (EmptyString, EmptyString)
  | String c s' =>
      if Ascii.eqb c sep then (EmptyString, s)
      else let '(seg, rest) := span_segment s' in (String c seg, rest)
  end.

(** The characters up to and including the first dot, if there is one,
    and the rest. *)
Fixpoint span_dot (s : string) : option (string * string) :=
  match s with
  | EmptyString => None
  | String c s' =>
      if Ascii.eqb c "."%char then Some (String c EmptyString, s')
      else match span_dot s' with
           | Some (pre, rest) => Some (String c pre, rest)
           | None => None
           end
  end.

(** [path.extname(p)]: from the last dot of the last segment to its end;
    empty when that segment has no dot, starts with its only dot, or is
    [..]. Computed on the reversed path. *)
Definition extname (p : string) : string :=
  let base_rev := fst (span_segment (drop_seps (String.rev p))) in
  match span_dot base_rev with
  | None => ""
  | Some (ext_rev, before_rev) =>
      if String.eqb before_rev "" || String.eqb base_rev dotdot then ""
      else String.rev ext_rev
  end.

(** [path.dirname(p)]: the path up to the separator before its last
    segment; the first character is never taken for that separator. *)
Definition dirname (p : string) : string :=
  match p with
  | EmptyString => "."
  | String c0 p' =>
      let hasRoot := Ascii.eqb c0 sep in
      match snd (span_segment (drop_seps (String.rev p'))) with
      | String _ before_rev =>
          if hasRoot && String.eqb before_rev "" then "//"
          else String c0 (String.rev before_rev)
      | EmptyString => if hasRoot then "/" else "."
      end
  end.

End path.

(* ===================================================================== *)
(** ** generate-docs.js: configuration and constants *)
(* ===================================================================== *)

(** What the script reads from [process.env] when it is loaded. *)
Record Config := {
  endpoint : option string;
  apiKey : option string;
  deployment : string;
  docType : string;
  forceAll : bool
}.

(** [process.env.NAME || fallback]: an unset or empty variable gives the
    fallback. *)
Definition env_or (environ : gmap string string) (name fallback : string) : string :=
  match environ !! name with
  | Some v => if str_truthy v then v else fallback
  | None => fallback
  end.

Definition load_config (environ : gmap string string) : Config :=
  {| endpoint := environ !! "AZURE_OPENAI_ENDPOINT";
     apiKey := environ !! "AZURE_OPENAI_API_KEY";
     deployment := env_or environ "AZURE_OPENAI_DEPLOYMENT" "gpt-4";
     docType := env_or environ "DOC_TYPE" "all";
     forceAll := bool_decide (environ !! "FORCE_ALL" = Some "true") |}.

Definition prompt_api : string :=
"Analyze this code and generate comprehensive API documentation in Markdown format. Include:
- Function/method signatures
- Parameters and return types
- Usage examples
- Error handling".

Definition prompt_codeComments : string :=
"Add detailed inline comments to this code explaining:
- What the code does
- Why specific approaches were chosen
- Any edge cases or assumptions
- Complex logic explanations".

Definition prompt_readme : string :=
"Generate a README.md section for this code including:
- Overview and purpose
- Key features
- Usage examples
- Installation/setup if applicable".

Definition prompt_architecture : string :=
"Analyze this code and describe:
- Overall architecture and design patterns
- Component relationships
- Data flow
- Key design decisions".

(** The object literal [prompts]. *)
Definition prompts : list (string * jsval) :=
  [ ("api", JStr prompt_api);
    ("codeComments", JStr prompt_codeComments);
    ("readme", JStr prompt_readme);
    ("architecture", JStr prompt_architecture) ].

(** The object literal [langMap] of [getLanguage]. *)
Definition langMap : list (string * jsval) :=
  [ (".js", JStr "javascript"); (".ts", JStr "typescript"); (".py", JStr "python");
    (".java", JStr "java"); (".cs", JStr "csharp"); (".go", JStr "go");
    (".rs", JStr "rust"); (".cpp", JStr "cpp"); (".c", JStr "c");
    (".rb", JStr "ruby"); (".php", JStr "php"); (".ps1", JStr "powershell");
    (".psm1", JStr "powershell"); (".sh", JStr "bash"); (".bash", JStr "bash");
    (".kt", JStr "kotlin"); (".swift", JStr "swift"); (".yml", JStr "yaml");
    (".yaml", JStr "yaml") ].

(** [langMap[ext] || 'plaintext'] *)
Definition getLanguage (ext : string) : string :=
  js_toString (js_or (js_get langMap ext) (JStr "plaintext")).

(** The alternatives of the regular expression
    [/\.(js|ts|py|java|go|rs|ps1|psm1|sh|bash|cpp|c|cs|rb|php|kt|swift|yml|yaml)$/],
    in its order. *)
Definition extensions : list string :=
  [ "js"; "ts"; "py"; "java"; "go"; "rs"; "ps1"; "psm1"; "sh"; "bash"; "cpp"; "c";
    "cs"; "rb"; "php"; "kt"; "swift"; "yml"; "yaml" ].

(** Does the regular expression match at the start of [s]: a dot, one of
    the alternatives, the end of the input. *)
Definition ext_regex_matches_here (s : string) : bool :=
  match s with
  | String "."%char rest => existsb (String.eqb rest) extensions
  | _ => false
  end.

(** [file.replace(/\.(js|...|yaml)$/, '.md')]: the leftmost match, which
    runs to the end of the input, is replaced; without a match the string
    is returned as it is. *)
Fixpoint replace_ext (s : string) : string :=
  if ext_regex_matches_here s then ".md"
  else match s with
       | EmptyString => EmptyString
       | String c s' => String c (replace_ext s')
       end.

(** The expression on line 147, in [getFilesNeedingDocumentation]. *)
Definition docPath_checked (file : string) : string :=
  path.join "Documentation" (replace_ext file).

(** The expression on line 258, in [generateDocumentation]. *)
Definition docPath_written (file : string) : string :=
  path.join "Documentation" (replace_ext file).

Definition MIN_CONTENT : N := 10.
Definition MAX_CONTENT : N := 200000.
Definition TRUNCATE_AT : N := 100000.
Definition MAX_COMPLETION_TOKENS : N := 16000.

(* ===================================================================== *)
(** ** The chat-completion service *)
(* ===================================================================== *)

Record Message := { role : string; content : string }.

Record Request := {
  model : string;
  messages : list Message;
  max_completion_tokens : N
}.

(** [message_content] is [choice.message?.content]: absent when the choice
    has no message or the message no content. *)
Record Choice := { message_content : option string; finish_reason : string }.

Inductive ApiOutcome : Type :=
  | ApiThrows (message : string)
  | ApiResponse (choices : option (list Choice)).

(* ===================================================================== *)
(** ** The world, the state and the monad *)
(* ===================================================================== *)

Record World := {
  environ : gmap string string;
  (** [execSync('git diff ...')]: its output, or the message of the error
      it throws. *)
  git_diff : string + string;
  (** what [glob(patterns, ...)] resolves to *)
  glob_files : list string;
  completions : Request -> ApiOutcome;
  mkdir_error : string -> option string;
  writeFile_error : string -> option string;
  (** [new Date().toISOString()] *)
  now_iso : string
}.

Inductive Event : Type :=
  | EvExec (command : string)
  | EvGlob (patterns : list string)
  | EvAccess (p : string)
  | EvReadFile (p : string)
  | EvMkdir (p : string)
  | EvWriteFile (p data : string)
  | EvApiCall (req : Request)
  | EvSleep (ms : N).

(** The files of the file system with their contents, the directories,
    and the effects performed so far, oldest first. *)
Record State := { fs : gmap string string; dirs : gset string; events : list Event }.

Inductive Outcome (A : Type) : Type :=
  | Returns (a : A)
  | Throws (message : string).
Arguments Returns {A} a.
Arguments Throws {A} message.

Definition M (A : Type) : Type := State -> Outcome A * State.

Definition ret {A} (a : A) : M A := fun st => (Returns a, st).

Definition throw {A} (message : string) : M A := fun st => (Throws message, st).

Definition bind {A B} (m : M A) (k : A -> M B) : M B :=
  fun st => match m st with
            | (Returns a, st') => k a st'
            | (Throws e, st') => (Throws e, st')
            end.

(** [try { m } catch (error) { handler(error.message) }] *)
Definition try_catch {A} (m : M A) (handler : string -> M A) : M A :=
  fun st => match m st with
            | (Returns a, st') => (Returns a, st')
            | (Throws e, st') => handler e st'
            end.

Notation "'let*' x ':=' m 'in' k" := (bind m (fun x => k))
  (at level 10, x name, m at level 100, k at level 200).
Notation "m ';;' k" := (bind m (fun _ => k))
  (at level 100, k at level 200, right associativity).

Definition emit (e : Event) : M unit :=
  fun st => (Returns tt, {| fs := fs st; dirs := dirs st; events := events st ++ [e] |}).

Definition git_diff_command : string := "git diff --name-only HEAD~1 HEAD".

Definition execSync (w : World) (command : string) : M string :=
  emit (EvExec command) ;;
  match git_diff w with
  | inl output => ret output
  | inr message => throw message
  end.

(** [fs.access(p)]: throws when there is no such file. *)
Definition fs_access (p : string) : M unit :=
  emit (EvAccess p) ;;
  fun st => match fs st !! p with
            | Some _ => (Returns tt, st)
            | None => (Throws ("ENOENT: no such file or directory, access '" +:+ p +:+ "'"), st)
            end.

Definition fs_readFile (p : string) : M string :=
  emit (EvReadFile p) ;;
  fun st => match fs st !! p with
            | Some data => (Returns data, st)
            | None => (Throws ("ENOENT: no such file or directory, open '" +:+ p +:+ "'"), st)
            end.

(** The paths [before ++ seg1], [before ++ seg1/seg2], and so on. *)
Fixpoint each_prefix (segs : list string) (before : string) : list string :=
  match segs with
  | [] => []
  | seg :: segs' => (before +:+ seg) :: each_prefix segs' (before +:+ seg +:+ "/")
  end.

(** The directories [fs.mkdir(p, { recursive: true })] makes sure exist:
    [p] and the directories above it. *)
Definition mkdir_targets (p : string) : list string :=
  each_prefix (List.filter str_truthy (js_split path.sep p))
    (if path.starts_with_sep p then "/" else "").

(** [fs.mkdir(p, { recursive: true })] *)
Definition fs_mkdir (w : World) (p : string) : M unit :=
  emit (EvMkdir p) ;;
  match mkdir_error w p with
  | Some message => throw message
  | None =>
      fun st => (Returns tt,
                 {| fs := fs st;
                    dirs := dirs st ∪ list_to_set (mkdir_targets p);
                    events := events st |})
  end.

Definition fs_writeFile (w : World) (p data : string) : M unit :=
  emit (EvWriteFile p data) ;;
  match writeFile_error w p with
  | Some message => throw message
  | None =>
      fun st => (Returns tt,
                 {| fs := <[p := data]> (fs st); dirs := dirs st; events := events st |})
  end.

Definition client_create (w : World) (req : Request) : M (option (list Choice)) :=
  emit (EvApiCall req) ;;
  match completions w req with
  | ApiThrows message => throw message
  | ApiResponse choices => ret choices
  end.

Definition sleep (ms : N) : M unit := emit (EvSleep ms).

(* ===================================================================== *)
(** ** generate-docs.js: the functions *)
(* ===================================================================== *)

Definition config (w : World) : Config := load_config (environ w).

(** [prompts[docType] || prompts.api], converted to a string by the template
    literal. *)
Definition selected_prompt (selector : string) : string :=
  js_toString (js_or (js_get prompts selector) (js_get prompts "api")).

Definition system_message : Message :=
  {| role := "system";
     content := "You are an expert technical writer who creates clear, comprehensive documentation for code." |}.

(** The template literal of the user message. *)
Definition user_content (selector filePath language code : string) : string :=
  "File: " +:+ filePath +:+ nl +:+ "Language: " +:+ language +:+ nl +:+ nl +:+
  selected_prompt selector +:+ nl +:+ nl +:+
  "Code:" +:+ nl +:+ "```" +:+ language +:+ nl +:+ code +:+ nl +:+ "```".

Definition build_messages (selector filePath code : string) : list Message :=
  let fileExt := path.extname filePath in
  let language := getLanguage fileExt in
  [ system_message;
    {| role := "user"; content := user_content selector filePath language code |} ].

Definition build_request (w : World) (filePath code : string) : Request :=
  {| model := deployment (config w);
     messages := build_messages (docType (config w)) filePath code;
     max_completion_tokens := MAX_COMPLETION_TOKENS |}.

(** The value [analyzeCode] returns is a string, [null] or [undefined];
    the last two are [None]. *)
Definition analyzeCode (w : World) (filePath code : string) : M (option string) :=
  try_catch
    (let* choices := client_create w (build_request w filePath code) in
     match choices with
     | Some (choice :: _) => ret (message_content choice)
     | Some [] | None => ret None
     end)
    (fun _ => ret None).

Definition nonempty (f : string) : bool := str_truthy f.

Definition parse_changed (output : string) : list string :=
  List.filter nonempty (js_split "010"%char (js_trim output)).

Definition getChangedFiles (w : World) : M (gset string) :=
  try_catch
    (let* output := execSync w git_diff_command in
     ret (list_to_set (parse_changed output)))
    (fun _ => ret ∅).

Record FileToProcess := { ftp_file : string; ftp_reason : string }.

(** [try { await fs.access(docPath); docExists = true } catch { docExists = false }] *)
Definition doc_exists (docPath : string) : M bool :=
  try_catch (fs_access docPath ;; ret true) (fun _ => ret false).

(** The loop of [getFilesNeedingDocumentation]; [filesToProcess] is the
    array being filled. *)
Fixpoint select_files (changedFiles : gset string) (allSourceFiles : list string)
    (filesToProcess : list FileToProcess) : M (list FileToProcess) :=
  match allSourceFiles with
  | [] => ret filesToProcess
  | file :: rest =>
      let wasChanged := bool_decide (file ∈ changedFiles) in
      let docPath := docPath_checked file in
      let* docExists := doc_exists docPath in
      select_files changedFiles rest
        (if wasChanged || negb docExists
         then filesToProcess ++
              [ {| ftp_file := file;
                   ftp_reason := if wasChanged then "changed" else "missing-docs" |} ]
         else filesToProcess)
  end.

Definition getFilesNeedingDocumentation (w : World) (allSourceFiles : list string)
    : M (list FileToProcess) :=
  if forceAll (config w) then
    ret (map (fun file => {| ftp_file := file; ftp_reason := "forced" |}) allSourceFiles)
  else
    let* changedFiles := getChangedFiles w in
    select_files changedFiles allSourceFiles [].

Definition glob_patterns : list string :=
  [ "**/*.{js,ts,py,java,go,rs,ps1,psm1,sh,bash,cpp,c,cs,rb,php,kt,swift,yml,yaml}";
    "!**/node_modules/**"; "!**/dist/**"; "!**/build/**"; "!**/vendor/**";
    "!**/.git/**"; "!**/*.test.*"; "!**/*.spec.*"; "!**/Documentation/**" ].

Definition findSourceFiles (w : World) : M (list string) :=
  emit (EvGlob glob_patterns) ;; ret (glob_files w).

(** A result record [{file, docPath?, success, error?}]. *)
Record Result := {
  res_file : string;
  res_docPath : option string;
  res_success : bool;
  res_error : option string
}.

Definition succeeded (file docPath : string) : Result :=
  {| res_file := file; res_docPath := Some docPath; res_success := true; res_error := None |}.

Definition failed_with (file message : string) : Result :=
  {| res_file := file; res_docPath := None; res_success := false; res_error := Some message |}.

(** How one pass through the body of the processing loop ends: with
    [continue], or by running off the end of the [try] statement. *)
Inductive Completion : Type := Continue | Normal.

(** [if (documentation)]: the text when the value is truthy, that is a
    string that is not empty. *)
Definition truthy_text (documentation : option string) : option string :=
  match documentation with
  | Some text => if str_truthy text then Some text else None
  | None => None
  end.

(** [processContent]: the content, cut to its first 100000 characters when
    it is longer. *)
Definition truncated (text : string) : string :=
  if TRUNCATE_AT <? js_length text then js_substring0 TRUNCATE_AT text else text.

(** The [try] statement of the processing loop, lines 234 to 271;
    [results] is the array before the pass, the array after it is
    returned. *)
Definition process_try (w : World) (file : string) (results : list Result)
    : M (Completion * list Result) :=
  try_catch
    (let* text := fs_readFile file in
     if js_length text <? MIN_CONTENT then ret (Continue, results)
     else if MAX_CONTENT <? js_length text then ret (Continue, results)
     else
       let processContent := truncated text in
       let* documentation := analyzeCode w file processContent in
       match truthy_text documentation with
       | Some text =>
           let docPath := docPath_written file in
           fs_mkdir w (path.dirname docPath) ;;
           fs_writeFile w docPath text ;;
           ret (Normal, results ++ [succeeded file docPath])
       | None =>
           ret (Normal, results ++ [failed_with file "No documentation generated"])
       end)
    (fun message => ret (Normal, results ++ [failed_with file message])).

(** One pass through the body of the loop, with the wait at its end. *)
Definition process_file (w : World) (file : string) (results : list Result)
    : M (Completion * list Result) :=
  let* r := process_try w file results in
  match fst r with
  | Continue => ret r
  | Normal => sleep 1000 ;; ret r
  end.

(** [for (const { file, reason } of filesToProcess) { ... }] *)
Fixpoint process_files (w : World) (filesToProcess : list FileToProcess)
    (results : list Result) : M (list Result) :=
  match filesToProcess with
  | [] => ret results
  | f :: rest =>
      let* r := process_file w (ftp_file f) results in
      process_files w rest (snd r)
  end.

(** [`${n}`] for a length. *)
Definition js_number (n : nat) : string := pretty (N.of_nat n).

Definition successful_of (results : list Result) : list Result :=
  List.filter (fun r => res_success r) results.

Definition failed_of (results : list Result) : list Result :=
  List.filter (fun r => negb (res_success r)) results.

(** The three lines under [## Statistics]. *)
Definition statistics (results : list Result) : string :=
  "- Total files processed: " +:+ js_number (length results) +:+ nl +:+
  "- Successfully documented: " +:+ js_number (length (successful_of results)) +:+ nl +:+
  "- Failed: " +:+ js_number (length (failed_of results)) +:+ nl +:+ nl.

(** [`${result.docPath}`]: a missing property reads [undefined]. *)
Definition opt_string (o : option string) : string := default "undefined" o.

Definition generated_section (successful : list Result) : string :=
  if (0 <? length successful)%nat then
    "## Generated Documentation" +:+ nl +:+ nl +:+
    fold_left (fun acc r => acc +:+ "- " +:+ opt_string (res_docPath r) +:+ nl) successful ""
  else "".

Definition failed_section (failed : list Result) : string :=
  if (0 <? length failed)%nat then
    nl +:+ "## Failed Files" +:+ nl +:+ nl +:+
    fold_left (fun acc r => acc +:+ "- " +:+ res_file r +:+ ": " +:+ opt_string (res_error r) +:+ nl)
      failed ""
  else "".

Definition summary_text (now : string) (results : list Result) : string :=
  "# Documentation Summary" +:+ nl +:+ nl +:+
  "Generated: " +:+ now +:+ nl +:+ nl +:+
  "## Statistics" +:+ nl +:+ nl +:+
  statistics results +:+
  generated_section (successful_of results) +:+
  failed_section (failed_of results).

Definition generateSummary (w : World) (results : list Result) : M unit :=
  fs_writeFile w "Documentation/SUMMARY.md" (summary_text (now_iso w) results).

Definition generateDocumentation (w : World) : M unit :=
  fs_mkdir w "Documentation" ;;
  let* allSourceFiles := findSourceFiles w in
  if (length allSourceFiles =? 0)%nat then ret tt
  else
    let* filesToProcess := getFilesNeedingDocumentation w allSourceFiles in
    if (length filesToProcess =? 0)%nat then ret tt
    else
      let* results := process_files w filesToProcess [] in
      generateSummary w results.

(** [value] is given and truthy. *)
Definition given (value : option string) : bool :=
  match value with
  | Some v => str_truthy v
  | None => false
  end.

(** Modelled on the [openai] package, which is not part of the
    repository: the constructor called on lines 13 to 18,
    [new AzureOpenAI({ endpoint, apiKey, apiVersion, deployment })], as far
    as it can throw. It throws without an API key; the base URL is taken
    from [OPENAI_BASE_URL] (trimmed), and the constructor throws when
    there is neither a base URL nor an endpoint, and when there are both.
    The result is the message of the error thrown, if any. *)
Definition new_AzureOpenAI (environ : gmap string string) (cfg : Config) : option string :=
  let baseURL := js_trim <$> (environ !! "OPENAI_BASE_URL") in
  if negb (given (apiKey cfg)) then
    Some "Missing credentials. Please pass one of `apiKey` and `azureADTokenProvider`, or set the `AZURE_OPENAI_API_KEY` environment variable."
  else if given baseURL then
    (if given (endpoint cfg) then Some "baseURL and endpoint are mutually exclusive" else None)
  else if given (endpoint cfg) then None
  else Some "Must provide one of the `baseURL` or `endpoint` arguments, or the `AZURE_OPENAI_ENDPOINT` environment variable".

(** The script as a process: the module is loaded, which constructs the
    client (an error thrown there is uncaught and ends the process with
    code 1 before anything is done), and then
    [generateDocumentation().catch(error => { ...; process.exit(1) })]
    runs. The result is the exit code of the process. *)
Definition main (w : World) (st : State) : N * State :=
  match new_AzureOpenAI (environ w) (config w) with
  | Some _ => (1, st)
  | None =>
      match generateDocumentation w st with
      | (Returns _, st') => (0, st')
      | (Throws _, st') => (1, st')
      end
  end.

(* ===================================================================== *)
(** ** Sync-GitRepo (PowerShell) *)
(* ===================================================================== *)

Inductive Color : Type := Yellow | Green | Red.

(** The commands the function runs: two cmdlets and the native [git]. *)
Inductive Command : Type :=
  | Set_Location (location : string)
  | Write_Host (text : string) (color : Color)
  | git (args : list string).

(** What running a command does to the control flow. A native command
    that exits with a non-zero code and a cmdlet that writes a
    non-terminating error both complete; only a terminating error (an
    exception) leaves the [try] block. *)
Inductive CommandResult : Type :=
  | Completed (exit_code : N)
  | TerminatingError (message : string).

(** The machine the function runs on: what a command does, given the
    commands run before it. *)
Definition Host : Type := list Command -> Command -> CommandResult.

(** [Write-Host] only prints. *)
Definition invoke (host : Host) (trace : list Command) (c : Command) : CommandResult :=
  match c with
  | Write_Host _ _ => Completed 0
  | _ => host trace c
  end.

(** A statement block: the commands in turn, until one raises a
    terminating error. The trace holds every command invoked. *)
Fixpoint run_block (host : Host) (trace : list Command) (block : list Command)
    : list Command * option string :=
  match block with
  | [] => (trace, None)
  | c :: rest =>
      match invoke host trace c with
      | Completed _ => run_block host (trace ++ [c]) rest
      | TerminatingError message => (trace ++ [c], Some message)
      end
  end.

(** How a function call ends for its caller. *)
Inductive CallResult : Type :=
  | ReturnsNormally
  | Propagates (message : string).

(** [try { body } catch { handler }], with [$_] given to the handler. *)
Definition ps_try_catch (host : Host) (body : list Command)
    (handler : string -> list Command) : list Command * CallResult :=
  match run_block host [] body with
  | (trace, None) => (trace, ReturnsNormally)
  | (trace, Some error) =>
      match run_block host trace (handler error) with
      | (trace', None) => (trace', ReturnsNormally)
      | (trace', Some error') => (trace', Propagates error')
      end
  end.

Definition sync_body (RepoPath Branch : string) : list Command :=
  [ Set_Location RepoPath;
    Write_Host "Fetching latest changes..." Yellow;
    git ["fetch"; "origin"];
    Write_Host ("Resetting to origin/" +:+ Branch +:+ "...") Yellow;
    git ["reset"; "--hard"; "origin/" +:+ Branch];
    Write_Host "Pulling latest changes..." Yellow;
    git ["pull"; "origin"; Branch];
    Write_Host "Repository sync complete!" Green ].

Definition sync_handler (error : string) : list Command :=
  [ Write_Host ("Error syncing repository: " +:+ error) Red ].

(** [Sync-GitRepo -RepoPath p [-Branch b]]; [Branch] is ["master"] when
    the parameter is not supplied. *)
Definition Sync_GitRepo (host : Host) (RepoPath : string) (Branch : option string)
    : list Command * CallResult :=
  let Branch := default "master" Branch in
  ps_try_catch host (sync_body RepoPath Branch) sync_handler.

(** The version-control commands among the commands invoked, in order. *)
Definition git_commands (trace : list Command) : list (list string) :=
  omap (fun c => match c with git args => Some args | _ => None end) trace.

(* ===================================================================== *)
(** ** Notions used in the statements *)
(* ===================================================================== *)

(** The state after some more effects. *)
Definition after (st : State) (evs : list Event) : State :=
  {| fs := fs st; dirs := dirs st; events := events st ++ evs |}.

(** The requests sent to the chat-completion service, in order. *)
Definition api_calls (evs : list Event) : list Request :=
  omap (fun e => match e with EvApiCall req => Some req | _ => None end) evs.

(** The two size tests of the processing loop taken together. *)
Definition size_skipped (text : string) : bool :=
  (js_length text <? MIN_CONTENT) || (MAX_CONTENT <? js_length text).

(** What the service makes [analyzeCode] return for a request. *)
Definition api_text (w : World) (req : Request) : option string :=
  match completions w req with
  | ApiThrows _ => None
  | ApiResponse (Some (choice :: _)) => message_content choice
  | ApiResponse _ => None
  end.

(** The number of records of a results list whose [success] is [b],
    counted record by record. *)
Fixpoint number_with_success (b : bool) (results : list Result) : nat :=
  match results with
  | [] => 0%nat
  | r :: results' =>
      ((if Bool.eqb (res_success r) b then 1 else 0) + number_with_success b results')%nat
  end.

(** A relative path as [glob] reports it: no segment is empty, [.] or
    [..]. *)
Definition plain_segment (seg : string) : bool :=
  negb (String.eqb seg "" || String.eqb seg "." || String.eqb seg "..").

Definition plain_relative (p : string) : bool :=
  forallb plain_segment (js_split path.sep p).

Fixpoint has_char (c : ascii) (s : string) : bool :=
  match s with
  | EmptyString => false
  | String c' s' => Ascii.eqb c' c || has_char c s'
  end.

(** The set [getChangedFiles] computes from the output of [git]. *)
Definition changed_files (w : World) : gset string :=
  match git_diff w with
  | inl output => list_to_set (parse_changed output)
  | inr _ => ∅
  end.

(** What [select_files] keeps of one source file. *)
Definition selection (changed : gset string) (fsys : gmap string string) (file : string)
    : option FileToProcess :=
  let wasChanged := bool_decide (file ∈ changed) in
  if wasChanged || negb (bool_decide (is_Some (fsys !! docPath_checked file)))
  then Some {| ftp_file := file;
               ftp_reason := if wasChanged then "changed" else "missing-docs" |}
  else None.

(* ===================================================================== *)
(** ** Concrete worlds for the examples *)
(* ===================================================================== *)

Definition demo_reply : Choice :=
  {| message_content := Some "# Documentation"; finish_reason := "stop" |}.

(** The service answers every request, except that it has nothing to say
    about PowerShell. *)
Definition demo_completions (req : Request) : ApiOutcome :=
  match messages req with
  | [_; user] =>
      if String.eqb (content user) (user_content "all" "tools/sync.ps1" "powershell" "git fetch origin")
      then ApiResponse (Some [])
      else ApiResponse (Some [demo_reply])
  | _ => ApiThrows "400 Bad Request"
  end.

Definition demo_world : World :=
  {| environ := {[ "AZURE_OPENAI_ENDPOINT" := "https://example.invalid";
                   "AZURE_OPENAI_API_KEY" := "secret" ]};
     git_diff := inl ("src/app.js" +:+ nl +:+ "README.md" +:+ nl);
     glob_files := ["src/app.js"; "lib/util.py"; "tools/sync.ps1"; "tiny.sh"; "done.rb"];
     completions := demo_completions;
     mkdir_error := fun _ => None;
     writeFile_error := fun _ => None;
     now_iso := "2024-01-01T00:00:00.000Z" |}.

Definition demo_fs : gmap string string :=
  {[ "src/app.js" := "console.log('hello');";
     "lib/util.py" := "def f(x): return x";
     "tools/sync.ps1" := "git fetch origin";
     "tiny.sh" := "ls";
     "done.rb" := "puts 'done'";
     "Documentation/src/app.md" := "# app";
     "Documentation/done.md" := "# done" ]}.

Definition demo_state : State :=
  {| fs := demo_fs; dirs := {[ "Documentation"; "Documentation/src" ]}; events := [] |}.

(** The same world with [FORCE_ALL=true]. *)
Definition forced_world : World :=
  {| environ := <[ "FORCE_ALL" := "true" ]> (environ demo_world);
     git_diff := git_diff demo_world;
     glob_files := glob_files demo_world;
     completions := demo_completions;
     mkdir_error := fun _ => None;
     writeFile_error := fun _ => None;
     now_iso := now_iso demo_world |}.

(** The requests one pass of the processing loop sends, given what
    [readFile] finds. *)
Definition pass_calls (w : World) (file : string) (data : option string) : list Request :=
  match data with
  | Some text => if size_skipped text then [] else [build_request w file (truncated text)]
  | None => []
  end.

(** The results list a computation returns. *)
Definition results_of {S : Type} (run : Outcome (list Result) * S) : list Result :=
  match fst run with
  | Returns results => results
  | Throws _ => []
  end.

(** A request with the completion-token limit of the script. *)
Definition token_ceiling (req : Request) : Prop := max_completion_tokens req = 16000.

(** A computation that adds effects to the list without touching the ones
    already there, and all of whose requests carry the limit. *)
Definition calls_bounded {A : Type} (m : M A) : Prop :=
  forall st, exists evs,
    events (snd (m st)) = events st ++ evs /\ Forall token_ceiling (api_calls evs).

(** [pieces] with [t] appended to its last piece. *)
Fixpoint app_last (pieces : list string) (t : string) : list string :=
  match pieces with
  | [] => [t]
  | [x] => [x +:+ t]
  | x :: pieces' => x :: app_last pieces' t
  end.

(** The names of the own properties of [prompts], and of the properties
    it inherits. *)
Definition own_prompt_keys : list string := map fst prompts.
Definition inherited_keys : list string := map fst object_prototype.

(** A machine on which every command completes, [git fetch] with a
    failure exit code. *)
Definition quiet_host : Host :=
  fun _ c => match c with git ("fetch" :: _) => Completed 128 | _ => Completed 0 end.

(** A machine without [git]. *)
Definition no_git_host : Host :=
  fun _ c => match c with
             | git _ => TerminatingError "The term 'git' is not recognized"
             | _ => Completed 0
             end.

(* ===================================================================== *)
(** ** Further notions used in the statements *)
(* ===================================================================== *)

(** The output of [git diff --name-only] for a list of names: each name
    on a line of its own. *)
Fixpoint unlines (names : list string) : string :=
  match names with
  | [] => EmptyString
  | name :: names' => name +:+ nl +:+ unlines names'
  end.

Definition starts_with_space (s : string) : bool :=
  match s with
  | String c _ => js_is_space c
  | EmptyString => false
  end.

(** A file name that survives [trim], [split] and [filter]: not empty, on
    one line, without white space at either end. *)
Definition clean_name (name : string) : bool :=
  negb (String.eqb name "")
  && negb (has_char "010"%char name)
  && negb (starts_with_space name)
  && negb (starts_with_space (String.rev name)).

(** The shape of a record of the results list: a success carries the
    documentation path of its file and no error, a failure an error and no
    path. *)
Definition result_shape (r : Result) : Prop :=
  if res_success r
  then res_docPath r = Some (docPath_written (res_file r)) /\ res_error r = None
  else res_docPath r = None /\ is_Some (res_error r).

(** A computation that leaves the file system alone outside the paths
    of [allowed]. *)
Definition writes_within {A : Type} (allowed : string -> Prop) (m : M A) : Prop :=
  forall st p, ~ allowed p -> fs (snd (m st)) !! p = fs st !! p.

(** Scanning a list of effects for requests that follow one another
    without a wait of at least 1000 ms in between. [ready] says whether a
    request may be sent now; the result is [None] when a request comes too
    early, and otherwise the readiness at the end. *)
Fixpoint spaced (ready : bool) (evs : list Event) : option bool :=
  match evs with
  | [] => Some ready
  | EvApiCall _ :: evs' => if ready then spaced false evs' else None
  | EvSleep ms :: evs' => spaced (ready || (1000 <=? ms)) evs'
  | _ :: evs' => spaced ready evs'
  end.

(** A computation that only adds effects, keeps the spacing of the
    requests and ends ready for the next one. *)
Definition keeps_spacing {A : Type} (m : M A) : Prop :=
  forall st, exists evs,
    events (snd (m st)) = events st ++ evs /\ spaced true evs = Some true.

(** A machine on which nothing raises a terminating error and every
    [git] command fails. *)
Definition failing_git_host : Host :=
  fun _ c => match c with git _ => Completed 128 | _ => Completed 0 end.

(** A machine on which the location cannot be set. *)
Definition no_location_host : Host :=
  fun _ c => match c with
             | Set_Location _ => TerminatingError "Cannot find drive."
             | _ => Completed 0
             end.

(** The demo world without a working [git]. *)
Definition first_commit_world : World :=
  {| environ := environ demo_world;
     git_diff := inr "Command failed: git diff --name-only HEAD~1 HEAD";
     glob_files := glob_files demo_world;
     completions := demo_completions;
     mkdir_error := fun _ => None;
     writeFile_error := fun _ => None;
     now_iso := now_iso demo_world |}.

(** The demo world on a read-only disk. *)
Definition readonly_world : World :=
  {| environ := environ demo_world;
     git_diff := git_diff demo_world;
     glob_files := glob_files demo_world;
     completions := demo_completions;
     mkdir_error := fun _ => Some "EROFS: read-only file system, mkdir";
     writeFile_error := fun _ => Some "EROFS: read-only file system, open";
     now_iso := now_iso demo_world |}.

(** The demo state once every source file has its documentation. *)
Definition documented_state : State :=
  {| fs := <[ "Documentation/lib/util.md" := "# util" ]>
           (<[ "Documentation/tools/sync.md" := "# sync" ]>
            (<[ "Documentation/tiny.md" := "# tiny" ]> demo_fs));
     dirs := {[ "Documentation"; "Documentation/src"; "Documentation/lib";
                "Documentation/tools" ]};
     events := [] |}.

(** The state once the script has made its directory and listed the
    source files. *)
Definition started (st : State) : State :=
  {| fs := fs st;
     dirs := dirs st ∪ list_to_set (mkdir_targets "Documentation");
     events := events st ++ [EvMkdir "Documentation"; EvGlob glob_patterns] |}.

(** The demo world without an API key. *)
Definition no_key_world : World :=
  {| environ := {[ "AZURE_OPENAI_ENDPOINT" := "https://example.invalid" ]};
     git_diff := git_diff demo_world;
     glob_files := glob_files demo_world;
     completions := demo_completions;
     mkdir_error := fun _ => None;
     writeFile_error := fun _ => None;
     now_iso := now_iso demo_world |}.

(** The demo world when the last commit changed no file. *)
Definition unchanged_world : World :=
  {| environ := environ demo_world;
     git_diff := inl "";
     glob_files := glob_files demo_world;
     completions := demo_completions;
     mkdir_error := fun _ => None;
     writeFile_error := fun _ => None;
     now_iso := now_iso demo_world |}.

(* ===================================================================== *)
(** ** Facts about strings *)
(* ===================================================================== *)

Lemma str_app_cons (c : ascii) (s t : string) : String c s +:+ t = String c (s +:+ t).
Proof. reflexivity. Qed.

Lemma str_app_nil_l (s : string) : "" +:+ s = s.
Proof. reflexivity. Qed.

Lemma str_app_nil_r (s : string) : s +:+ "" = s.
Proof. induction s as [|c s IH]; [done|]. by rewrite str_app_cons, IH. Qed.

Lemma str_app_assoc (s t u : string) : (s +:+ t) +:+ u = s +:+ (t +:+ u).
Proof. induction s as [|c s IH]; [done|]. by rewrite !str_app_cons, IH. Qed.

Lemma rev_app_spec (s acc : string) : String.rev_app s acc = String.rev s +:+ acc.
Proof.
  unfold String.rev. revert acc.
  induction s as [|c s IH]; intros acc; simpl; [done|].
  rewrite (IH (String c acc)), (IH (String c "")).
  by rewrite str_app_assoc.
Qed.

Lemma str_rev_cons (c : ascii) (s : string) :
  String.rev (String c s) = String.rev s +:+ String c "".
Proof. unfold String.rev at 1. simpl. apply rev_app_spec. Qed.

Lemma str_rev_app (s t : string) : String.rev (s +:+ t) = String.rev t +:+ String.rev s.
Proof.
  induction s as [|c s IH].
  - by rewrite str_app_nil_l, str_app_nil_r.
  - by rewrite str_app_cons, !str_rev_cons, IH, str_app_assoc.
Qed.

Lemma str_rev_involutive (s : string) : String.rev (String.rev s) = s.
Proof.
  induction s as [|c s IH]; [done|].
  by rewrite str_rev_cons, str_rev_app, IH.
Qed.

(* ===================================================================== *)
(** ** The [path] functions on examples *)
(* ===================================================================== *)

Example join_plain : path.join "Documentation" "src/app.md" = "Documentation/src/app.md".
Proof. reflexivity. Qed.
Example join_dots : path.join "Documentation" "./a//b/../c.md" = "Documentation/a/c.md".
Proof. reflexivity. Qed.
Example join_up : path.join "Documentation" "../c.md" = "c.md".
Proof. reflexivity. Qed.
Example extname_ex : map path.extname ["a/b.test.js"; ".bashrc"; "a/"; "x."; ".."; "a.b/c"; "lib.ps1/"]
  = [".js"; ""; ""; "."; ""; ""; ".ps1"].
Proof. reflexivity. Qed.
Example dirname_ex : map path.dirname ["Documentation/a/b.md"; "b.md"; "/b.md"; "a//b"; "/a/b/"; "//a"]
  = ["Documentation/a"; "."; "/"; "a/"; "/a"; "//"].
Proof. reflexivity. Qed.

(* ===================================================================== *)
(** ** The path of a documentation file *)
(* ===================================================================== *)

(** *** The regular expression *)

Lemma has_char_app c s t : has_char c (s +:+ t) = has_char c s || has_char c t.
Proof.
  induction s as [|a s IH]; [done|].
  rewrite str_app_cons. simpl. by rewrite IH, orb_assoc.
Qed.

Lemma extensions_no_dot ext : ext ∈ extensions -> has_char "." ext = false.
Proof.
  intros Hin. apply list_elem_of_In in Hin.
  assert (forallb (fun e => negb (has_char "." e)) extensions = true) as Hall by reflexivity.
  rewrite forallb_forall in Hall. specialize (Hall ext Hin).
  by apply negb_true_iff in Hall.
Qed.

Lemma extensions_no_sep ext : ext ∈ extensions -> has_char path.sep ext = false.
Proof.
  intros Hin. apply list_elem_of_In in Hin.
  assert (forallb (fun e => negb (has_char path.sep e)) extensions = true) as Hall by reflexivity.
  rewrite forallb_forall in Hall. specialize (Hall ext Hin).
  by apply negb_true_iff in Hall.
Qed.

Lemma regex_here_dot rest :
  ext_regex_matches_here (String "."%char rest) = existsb (String.eqb rest) extensions.
Proof. reflexivity. Qed.

Lemma regex_matches_extension ext :
  ext ∈ extensions -> ext_regex_matches_here (String "."%char ext) = true.
Proof.
  intros Hin. rewrite regex_here_dot.
  apply existsb_exists. exists ext. split; [by apply list_elem_of_In | apply String.eqb_refl].
Qed.

(** No match starts before the last dot: what follows an earlier dot has a
    dot in it, and no alternative has. *)
Lemma regex_no_match_before c s ext :
  ext_regex_matches_here (String c (s +:+ String "."%char ext)) = false.
Proof.
  destruct c as [[] [] [] [] [] [] [] []]; try reflexivity.
  rewrite regex_here_dot.
  apply not_true_is_false. intros Hex. apply existsb_exists in Hex as (alt & Halt & Heq).
  apply String.eqb_eq in Heq. apply list_elem_of_In, extensions_no_dot in Halt.
  rewrite <- Heq, has_char_app in Halt.
  simpl in Halt. by rewrite orb_true_r in Halt.
Qed.

Lemma replace_ext_cons c s :
  replace_ext (String c s)
  = if ext_regex_matches_here (String c s) then ".md" else String c (replace_ext s).
Proof. reflexivity. Qed.

Lemma replace_ext_suffix stem ext :
  ext ∈ extensions -> replace_ext (stem +:+ String "."%char ext) = stem +:+ ".md".
Proof.
  intros Hin. induction stem as [|c stem IH].
  - rewrite !str_app_nil_l, replace_ext_cons.
    by rewrite (regex_matches_extension ext Hin).
  - rewrite (str_app_cons c stem), replace_ext_cons, regex_no_match_before.
    by rewrite IH.
Qed.

(** *** Splitting and joining *)

Lemma js_split_nonempty c s : js_split c s <> [].
Proof.
  destruct s as [|a s]; simpl; [done|].
  destruct (Ascii.eqb a c); [done|]. by destruct (js_split c s).
Qed.

Lemma js_split_no_sep c t : has_char c t = false -> js_split c t = [t].
Proof.
  induction t as [|a t IH]; simpl; [done|].
  intros Hno. apply orb_false_elim in Hno as [Ha Ht].
  by rewrite Ha, (IH Ht).
Qed.

Lemma js_split_app_sep c s t :
  js_split c (s +:+ String c t) = js_split c s ++ js_split c t.
Proof.
  induction s as [|a s IH].
  - rewrite str_app_nil_l. simpl. by rewrite Ascii.eqb_refl.
  - rewrite str_app_cons. simpl. rewrite IH.
    destruct (Ascii.eqb a c); [done|].
    destruct (js_split c s) as [|piece pieces] eqn:Hs; [by apply js_split_nonempty in Hs|].
    done.
Qed.

Lemma js_split_app_last c s t :
  has_char c t = false -> js_split c (s +:+ t) = app_last (js_split c s) t.
Proof.
  intros Hno. induction s as [|a s IH].
  - rewrite str_app_nil_l. simpl. by apply js_split_no_sep.
  - rewrite str_app_cons. simpl. rewrite IH.
    destruct (js_split c s) as [|piece pieces] eqn:Hs; [by apply js_split_nonempty in Hs|].
    destruct (Ascii.eqb a c); [done|].
    simpl. by destruct pieces.
Qed.

Lemma js_join_cons sep x y l : js_join sep (x :: y :: l) = x +:+ sep +:+ js_join sep (y :: l).
Proof. reflexivity. Qed.

Lemma js_join_split s : js_join "/" (js_split path.sep s) = s.
Proof.
  induction s as [|a s IH]; [done|].
  simpl. destruct (Ascii.eqb_spec a path.sep) as [->|Hne].
  - destruct (js_split path.sep s) as [|piece pieces] eqn:Hs; [by apply js_split_nonempty in Hs|].
    rewrite js_join_cons, IH. reflexivity.
  - destruct (js_split path.sep s) as [|piece pieces] eqn:Hs; [by apply js_split_nonempty in Hs|].
    destruct pieces as [|piece' pieces].
    + simpl in *. by rewrite IH.
    + rewrite js_join_cons in *. rewrite str_app_cons. by rewrite IH.
Qed.

(** *** Normalizing a plain path *)

Lemma normalize_step_plain allow stack seg :
  plain_segment seg = true -> path.normalize_step allow stack seg = seg :: stack.
Proof.
  unfold plain_segment, path.normalize_step, path.dotdot. intros Hplain.
  apply negb_true_iff in Hplain.
  apply orb_false_elim in Hplain as [Hplain Hdd].
  by rewrite Hplain, Hdd.
Qed.

Lemma fold_normalize_plain allow segs stack :
  forallb plain_segment segs = true ->
  fold_left (path.normalize_step allow) segs stack = rev segs ++ stack.
Proof.
  revert stack. induction segs as [|seg segs IH]; intros stack Hplain; simpl in *; [done|].
  apply andb_true_iff in Hplain as [Hseg Hsegs].
  rewrite (normalize_step_plain _ _ _ Hseg), (IH _ Hsegs).
  by rewrite <- app_assoc.
Qed.

Lemma plain_not_empty p : plain_relative p = true -> p <> "".
Proof. intros Hplain ->. discriminate. Qed.

Lemma forallb_app_plain l l' :
  forallb plain_segment (l ++ l') = forallb plain_segment l && forallb plain_segment l'.
Proof. apply forallb_app. Qed.

(** A plain path does not end with a separator. *)
Lemma plain_no_trailing_sep prefix p :
  plain_relative p = true -> path.ends_with_sep (prefix +:+ p) = false.
Proof.
  intros Hplain. unfold path.ends_with_sep. rewrite str_rev_app.
  destruct (String.rev p) as [|a r] eqn:Hrev.
  - apply (f_equal String.rev) in Hrev. rewrite str_rev_involutive in Hrev.
    by apply plain_not_empty in Hplain.
  - rewrite str_app_cons. simpl.
    destruct (Ascii.eqb_spec a path.sep) as [->|Hne]; [|done].
    apply (f_equal String.rev) in Hrev. rewrite str_rev_involutive, str_rev_cons in Hrev.
    unfold plain_relative in Hplain.
    rewrite Hrev, js_split_app_sep, forallb_app_plain in Hplain.
    apply andb_true_iff in Hplain as [_ Hlast]. discriminate.
Qed.

Lemma join_plain_relative p :
  plain_relative p = true -> path.join "Documentation" p = "Documentation/" +:+ p.
Proof.
  intros Hplain. pose proof (plain_not_empty p Hplain) as Hne.
  unfold path.join.
  destruct (String.eqb_spec p "") as [|_]; [done|].
  change (String.eqb "Documentation" "") with false. cbv iota.
  change ("Documentation" +:+ "/" +:+ p) with ("Documentation/" +:+ p).
  unfold path.normalize.
  change (String.eqb ("Documentation/" +:+ p) "") with false. cbv iota.
  change (path.starts_with_sep ("Documentation/" +:+ p)) with false.
  rewrite (plain_no_trailing_sep _ _ Hplain). cbv zeta. simpl negb.
  assert (path.normalizeString ("Documentation/" +:+ p) true = "Documentation/" +:+ p) as ->.
  { unfold path.normalizeString.
    rewrite fold_normalize_plain, app_nil_r, rev_involutive; [apply js_join_split|].
    change ("Documentation/" +:+ p) with ("Documentation" +:+ String path.sep p).
    rewrite js_split_app_sep, forallb_app_plain. exact Hplain. }
  reflexivity.
Qed.

(** *** Replacing the extension keeps a path plain *)

Lemma plain_segment_md x : plain_segment (x +:+ ".md") = true.
Proof.
  destruct x as [|a [|b [|c x]]]; try reflexivity.
  - unfold plain_segment. rewrite str_app_cons. simpl.
    destruct (Ascii.eqb a "."); reflexivity.
  - unfold plain_segment. rewrite !str_app_cons. simpl.
    destruct (Ascii.eqb a "."); [|reflexivity]. destruct (Ascii.eqb b "."); reflexivity.
  - unfold plain_segment. rewrite !str_app_cons. simpl.
    destruct (Ascii.eqb a "."); [|reflexivity]. destruct (Ascii.eqb b "."); reflexivity.
Qed.

Lemma plain_app_last_md pieces t :
  forallb plain_segment (app_last pieces t) = true ->
  forallb plain_segment (app_last pieces ".md") = true.
Proof.
  induction pieces as [|x pieces IH]; [done|].
  destruct pieces as [|y pieces].
  - intros _. simpl. by rewrite plain_segment_md.
  - change (app_last (x :: y :: pieces) t) with (x :: app_last (y :: pieces) t).
    change (app_last (x :: y :: pieces) ".md") with (x :: app_last (y :: pieces) ".md").
    simpl forallb. rewrite !andb_true_iff. intros [Hx Hrest]. split; [done | by apply IH].
Qed.

Lemma plain_replace_ext stem ext :
  ext ∈ extensions ->
  plain_relative (stem +:+ String "."%char ext) = true ->
  plain_relative (stem +:+ ".md") = true.
Proof.
  intros Hin. unfold plain_relative.
  rewrite !js_split_app_last.
  - apply plain_app_last_md.
  - reflexivity.
  - simpl. by rewrite (extensions_no_sep _ Hin).
Qed.

(** The documentation path of a plain path with a recognized extension. *)
Lemma doc_path_facts stem ext :
  ext ∈ extensions ->
  plain_relative (stem +:+ "." +:+ ext) = true ->
  replace_ext (stem +:+ "." +:+ ext) = stem +:+ ".md"
  /\ docPath_written (stem +:+ "." +:+ ext) = "Documentation/" +:+ stem +:+ ".md".
Proof.
  change ("." +:+ ext) with (String "."%char ext).
  intros Hin Hplain. split; [by apply replace_ext_suffix|].
  unfold docPath_written. rewrite (replace_ext_suffix _ _ Hin).
  apply join_plain_relative. by apply (plain_replace_ext stem ext).
Qed.

(** C4. For a source file path ending in a dot and one of the recognized
    extensions, the expression that derives the documentation path where
    existence is checked and the one where the documentation is written
    give the same path; the trailing extension is replaced by [.md]; and,
    the path being a relative path as [glob] reports them, the result is
    the path with [Documentation/] in front and [.md] for the extension. *)
Theorem doc_path_derivation (stem ext : string) :
  ext ∈ extensions ->
  plain_relative (stem +:+ "." +:+ ext) = true ->
  docPath_checked (stem +:+ "." +:+ ext) = docPath_written (stem +:+ "." +:+ ext)
  /\ replace_ext (stem +:+ "." +:+ ext) = stem +:+ ".md"
  /\ docPath_written (stem +:+ "." +:+ ext) = "Documentation/" +:+ stem +:+ ".md".
Proof.
  change ("." +:+ ext) with (String "."%char ext).
  intros Hin Hplain. split; [reflexivity|]. split; [by apply replace_ext_suffix|].
  unfold docPath_written. rewrite (replace_ext_suffix _ _ Hin).
  apply join_plain_relative. by apply (plain_replace_ext stem ext).
Qed.

Lemma doc_path_derivation_witness :
  ("psm1" ∈ extensions)
  /\ plain_relative ("tools/Sync.Repo" +:+ "." +:+ "psm1") = true
  /\ docPath_checked "tools/Sync.Repo.psm1" = docPath_written "tools/Sync.Repo.psm1"
  /\ replace_ext "tools/Sync.Repo.psm1" = "tools/Sync.Repo.md"
  /\ docPath_written "tools/Sync.Repo.psm1" = "Documentation/tools/Sync.Repo.md".
Proof.
  assert ("psm1" ∈ extensions) as Hin.
  { apply list_elem_of_In. simpl. auto 10. }
  split; [exact Hin|]. split; [reflexivity|].
  apply (doc_path_derivation "tools/Sync.Repo" "psm1" Hin). reflexivity.
Defined.

Example replace_ext_examples :
  map replace_ext ["a.c"; "a.cs"; "a.cpp"; "x.yml"; "x.yaml"; "m.ps1"; "m.psm1"; "b.sh"; "b.bash";
                   "a.js.ts"; "a.test.js"; "README.md"; "a.jsx"; "js"; ".js"]
  = ["a.md"; "a.md"; "a.md"; "x.md"; "x.md"; "m.md"; "m.md"; "b.md"; "b.md";
     "a.js.md"; "a.test.md"; "README.md"; "a.jsx"; "js"; ".md"].
Proof. reflexivity. Qed.

(* ===================================================================== *)
(** ** Running the effects *)
(* ===================================================================== *)

Ltac run_monad :=
  unfold bind, ret, throw, try_catch, emit, after; simpl.

Lemma after_nil st : after st [] = st.
Proof. destruct st. unfold after. simpl. by rewrite app_nil_r. Qed.

Lemma after_after st evs evs' : after (after st evs) evs' = after st (evs ++ evs').
Proof. unfold after. simpl. by rewrite app_assoc. Qed.

Lemma getChangedFiles_run w st :
  getChangedFiles w st = (Returns (changed_files w), after st [EvExec git_diff_command]).
Proof.
  unfold getChangedFiles, execSync, changed_files. run_monad.
  destruct (git_diff w); reflexivity.
Qed.

Lemma doc_exists_run p st :
  doc_exists p st = (Returns (bool_decide (is_Some (fs st !! p))), after st [EvAccess p]).
Proof.
  unfold doc_exists, fs_access. run_monad.
  destruct (fs st !! p) as [data|]; reflexivity.
Qed.

Lemma select_files_run changed files acc st :
  select_files changed files acc st
  = (Returns (acc ++ omap (selection changed (fs st)) files),
     after st (map (fun file => EvAccess (docPath_checked file)) files)).
Proof.
  revert acc st. induction files as [|file files IH]; intros acc st; simpl.
  - unfold ret. by rewrite app_nil_r, after_nil.
  - unfold bind at 1. rewrite doc_exists_run. rewrite IH. simpl.
    rewrite after_after. simpl. f_equal. f_equal.
    unfold selection.
    destruct (bool_decide (file ∈ changed) || negb (bool_decide (is_Some (fs st !! docPath_checked file))));
      simpl; [by rewrite <- app_assoc | done].
Qed.

Lemma omap_selection_files changed fsys (files : list string) :
  map ftp_file (omap (selection changed fsys) files)
  = filter (fun file => file ∈ changed \/ fsys !! docPath_checked file = None) files.
Proof.
  induction files as [|file files IH]; [done|].
  simpl. unfold selection at 1.
  destruct (decide (file ∈ changed)) as [Hin|Hout].
  - rewrite (bool_decide_eq_true_2 _ Hin). simpl.
    rewrite filter_cons_True by (by left). f_equal. exact IH.
  - rewrite (bool_decide_eq_false_2 _ Hout). simpl.
    destruct (fsys !! docPath_checked file) as [data|] eqn:Hdoc.
    + rewrite bool_decide_eq_true_2 by (by eexists). simpl.
      rewrite filter_cons_False; [exact IH|]. intros [?|?]; [done | congruence].
    + rewrite bool_decide_eq_false_2 by (by intros [? ?]). simpl.
      rewrite filter_cons_True by (by right). f_equal. exact IH.
Qed.

Lemma omap_selection_reason changed fsys (files : list string) f :
  f ∈ omap (selection changed fsys) files ->
  ftp_reason f = if bool_decide (ftp_file f ∈ changed) then "changed" else "missing-docs".
Proof.
  intros Hf. apply list_elem_of_omap in Hf as (file & _ & Hsel).
  unfold selection in Hsel.
  destruct (bool_decide (file ∈ changed) || _); [|discriminate].
  by injection Hsel as <-.
Qed.

Lemma changed_files_spec w name :
  name ∈ changed_files w
  <-> exists output, git_diff w = inl output /\ name <> ""
                     /\ name ∈ js_split "010"%char (js_trim output).
Proof.
  unfold changed_files. destruct (git_diff w) as [output|message].
  - rewrite elem_of_list_to_set. unfold parse_changed.
    rewrite list_elem_of_In, filter_In, <- list_elem_of_In. split.
    + intros [Hin Hne]. exists output. split; [done|]. split; [|done].
      intros ->. discriminate.
    + intros (output' & [= <-] & Hne & Hin). split; [done|].
      unfold nonempty, str_truthy. by destruct (String.eqb_spec name "").
  - split; [by intros ?%not_elem_of_empty | by intros (? & [=] & _)].
Qed.

(** C2. With force mode off, [getFilesNeedingDocumentation] runs
    [git diff --name-only HEAD~1 HEAD] and keeps of the source files, in
    their order, exactly those that are in the set of changed files or
    whose documentation file does not exist; a file it keeps has reason
    [changed] when it is in that set and [missing-docs] otherwise. The set
    of changed files is the one [getChangedFiles] returns, and it holds
    exactly the lines that are not empty of the trimmed output of [git]
    (no name at all when [git] fails). *)
Theorem getFilesNeedingDocumentation_selects (w : World) (files : list string) (st : State) :
  forceAll (config w) = false ->
  exists changed selected st',
    (forall name, name ∈ changed
       <-> exists output, git_diff w = inl output /\ name <> ""
                          /\ name ∈ js_split "010"%char (js_trim output))
    /\ fst (getChangedFiles w st) = Returns changed
    /\ getFilesNeedingDocumentation w files st = (Returns selected, st')
    /\ EvExec "git diff --name-only HEAD~1 HEAD" ∈ events st'
    /\ map ftp_file selected
       = filter (fun file => file ∈ changed \/ fs st !! docPath_checked file = None) files
    /\ (forall f, f ∈ selected ->
        ftp_reason f = if bool_decide (ftp_file f ∈ changed) then "changed" else "missing-docs").
Proof.
  intros Hforce. unfold getFilesNeedingDocumentation. rewrite Hforce.
  unfold bind. rewrite getChangedFiles_run, select_files_run, after_after. simpl.
  eexists _, _, _. split; [apply changed_files_spec|].
  split; [reflexivity|]. split; [reflexivity|]. split; [|split].
  - simpl. apply elem_of_app. right. apply list_elem_of_here.
  - apply omap_selection_files.
  - apply omap_selection_reason.
Qed.

Lemma getFilesNeedingDocumentation_selects_witness :
  forceAll (config demo_world) = false
  /\ exists changed selected st',
    (forall name, name ∈ changed
       <-> exists output, git_diff demo_world = inl output /\ name <> ""
                          /\ name ∈ js_split "010"%char (js_trim output))
    /\ fst (getChangedFiles demo_world demo_state) = Returns changed
    /\ getFilesNeedingDocumentation demo_world (glob_files demo_world) demo_state
       = (Returns selected, st')
    /\ EvExec "git diff --name-only HEAD~1 HEAD" ∈ events st'
    /\ map ftp_file selected
       = filter (fun file => file ∈ changed \/ fs demo_state !! docPath_checked file = None)
           (glob_files demo_world)
    /\ (forall f, f ∈ selected ->
        ftp_reason f = if bool_decide (ftp_file f ∈ changed) then "changed" else "missing-docs").
Proof.
  split; [reflexivity|].
  apply (getFilesNeedingDocumentation_selects demo_world (glob_files demo_world) demo_state).
  reflexivity.
Defined.

Example demo_selection :
  fst (getFilesNeedingDocumentation demo_world (glob_files demo_world) demo_state)
  = Returns [ {| ftp_file := "src/app.js"; ftp_reason := "changed" |};
              {| ftp_file := "lib/util.py"; ftp_reason := "missing-docs" |};
              {| ftp_file := "tools/sync.ps1"; ftp_reason := "missing-docs" |};
              {| ftp_file := "tiny.sh"; ftp_reason := "missing-docs" |} ].
Proof. vm_compute. reflexivity. Qed.

(** C10. With [FORCE_ALL] equal to [true], [getFilesNeedingDocumentation]
    returns every source file it is given, in order, with reason [forced],
    and performs no effect at all: it runs neither [git] nor [fs.access],
    so neither the set of changed files nor the existence of a
    documentation file is consulted. *)
Theorem getFilesNeedingDocumentation_forced (w : World) (files : list string) (st : State) :
  environ w !! "FORCE_ALL" = Some "true" ->
  getFilesNeedingDocumentation w files st
  = (Returns (map (fun file => {| ftp_file := file; ftp_reason := "forced" |}) files), st).
Proof.
  intros Hforce. unfold getFilesNeedingDocumentation, config, load_config. simpl.
  rewrite bool_decide_eq_true_2 by done. reflexivity.
Qed.

Lemma getFilesNeedingDocumentation_forced_witness :
  environ forced_world !! "FORCE_ALL" = Some "true"
  /\ getFilesNeedingDocumentation forced_world ["src/app.js"; "done.rb"] demo_state
     = (Returns [ {| ftp_file := "src/app.js"; ftp_reason := "forced" |};
                  {| ftp_file := "done.rb"; ftp_reason := "forced" |} ], demo_state).
Proof.
  split; [reflexivity|].
  apply (getFilesNeedingDocumentation_forced forced_world ["src/app.js"; "done.rb"] demo_state).
  reflexivity.
Defined.

(* ===================================================================== *)
(** ** The processing loop *)
(* ===================================================================== *)

Lemma analyzeCode_run w filePath code st :
  analyzeCode w filePath code st
  = (Returns (api_text w (build_request w filePath code)),
     after st [EvApiCall (build_request w filePath code)]).
Proof.
  unfold analyzeCode, client_create, api_text. run_monad.
  destruct (completions w (build_request w filePath code)) as [message|[[|choice choices]|]];
    reflexivity.
Qed.

Lemma size_skipped_false text :
  size_skipped text = false ->
  (js_length text <? MIN_CONTENT) = false /\ (MAX_CONTENT <? js_length text) = false.
Proof. unfold size_skipped. intros H. by apply orb_false_elim in H. Qed.

Lemma size_skipped_true text :
  size_skipped text = true <-> js_length text < MIN_CONTENT \/ MAX_CONTENT < js_length text.
Proof.
  unfold size_skipped. rewrite orb_true_iff, !N.ltb_lt. reflexivity.
Qed.

Lemma process_try_unreadable w file results st :
  fs st !! file = None ->
  process_try w file results st
  = (Returns (Normal, results ++
       [failed_with file ("ENOENT: no such file or directory, open '" +:+ file +:+ "'")]),
     after st [EvReadFile file]).
Proof.
  intros Hfile. unfold process_try, fs_readFile. run_monad. rewrite Hfile. reflexivity.
Qed.

Lemma process_try_skipped w file results st text :
  fs st !! file = Some text -> size_skipped text = true ->
  process_try w file results st = (Returns (Continue, results), after st [EvReadFile file]).
Proof.
  intros Hfile Hskip. unfold process_try, fs_readFile. run_monad. rewrite Hfile.
  unfold size_skipped in Hskip.
  destruct (js_length text <? MIN_CONTENT); [reflexivity|].
  simpl in Hskip. rewrite Hskip. reflexivity.
Qed.

Ltac pass_done :=
  split; [reflexivity|];
  split; [simpl; rewrite <- ?app_assoc; reflexivity|];
  split; [reflexivity|];
  split; [reflexivity|];
  intros; congruence.

(** A pass that reaches the service: the request goes out once, and what
    follows it is [mkdir] and [writeFile] at most. *)
Lemma process_try_analyzed w file results st text :
  fs st !! file = Some text -> size_skipped text = false ->
  let req := build_request w file (truncated text) in
  exists r st' evs,
    process_try w file results st = (Returns (Normal, results ++ [r]), st')
    /\ events st' = events st ++ [EvReadFile file; EvApiCall req] ++ evs
    /\ api_calls evs = []
    /\ res_file r = file
    /\ (truthy_text (api_text w req) = None ->
        r = failed_with file "No documentation generated").
Proof.
  intros Hfile Hsize req. apply size_skipped_false in Hsize as [Hmin Hmax].
  unfold process_try, fs_readFile. unfold bind at 1. unfold bind at 1. unfold try_catch at 1.
  unfold bind at 1. cbn [emit]. cbn [fs events]. rewrite Hfile, Hmin, Hmax.
  unfold bind at 1. rewrite analyzeCode_run. fold req.
  destruct (truthy_text (api_text w req)) as [doc|] eqn:Hdoc.
  - unfold fs_mkdir, fs_writeFile. run_monad.
    destruct (mkdir_error w _) as [e1|]; simpl.
    { eexists _, _, [_]. pass_done. }
    destruct (writeFile_error w _) as [e2|]; simpl.
    { eexists _, _, [_; _]. pass_done. }
    eexists _, _, [_; _]. pass_done.
  - run_monad. eexists _, _, []. pass_done.
Qed.

Lemma api_calls_app evs evs' : api_calls (evs ++ evs') = api_calls evs ++ api_calls evs'.
Proof. apply omap_app. Qed.

(** Every pass returns; it sends the requests of [pass_calls], ends with
    [continue] exactly for a content outside the size limits, and then
    leaves the results as they were; otherwise it appends one record for
    the file. *)
Lemma process_file_run w file results st :
  exists c results' st' evs,
    process_file w file results st = (Returns (c, results'), st')
    /\ events st' = events st ++ evs
    /\ api_calls evs = pass_calls w file (fs st !! file)
    /\ match c with
       | Continue =>
           results' = results
           /\ exists text, fs st !! file = Some text /\ size_skipped text = true
       | Normal =>
           (exists r, results' = results ++ [r] /\ res_file r = file)
           /\ forall text, fs st !! file = Some text -> size_skipped text = false
       end.
Proof.
  unfold process_file. unfold bind at 1.
  destruct (fs st !! file) as [text|] eqn:Hfile.
  - destruct (size_skipped text) eqn:Hsize.
    + rewrite (process_try_skipped _ _ _ _ _ Hfile Hsize). simpl.
      eexists Continue, _, _, [_]. unfold pass_calls. rewrite Hsize.
      repeat split; eauto.
    + destruct (process_try_analyzed w file results st text Hfile Hsize)
        as (r & st1 & evs & -> & Hev & Hcalls & Hr & _).
      simpl. unfold sleep, bind, emit, ret; simpl.
      eexists Normal, _, _, _. split; [reflexivity|]. simpl. rewrite Hev.
      split; [by rewrite <- !app_assoc|]. split.
      * simpl. rewrite api_calls_app, Hcalls. unfold pass_calls. by rewrite Hsize.
      * split; [eauto | congruence].
  - rewrite (process_try_unreadable _ _ _ _ Hfile). simpl.
    unfold sleep, bind, emit, ret; simpl.
    eexists Normal, _, _, _. split; [reflexivity|]. simpl.
    split; [by rewrite <- !app_assoc|]. split; [reflexivity|].
    split; [eauto | congruence].
Qed.

(** C5, as stated, fails: it is not so that every pass of the processing
    loop other than a skip for the size of the content sends exactly one
    request. In [demo_state] there is no file to read at [pkg.js] (as for
    a directory of that name, which the file patterns match): the read
    throws, the pass goes on to the [catch] and sends no request. *)
Lemma unreadable_file_no_request :
  ~ (forall (w : World) (file : string) (results : list Result) (st : State),
       exists c results' st' evs,
         process_file w file results st = (Returns (c, results'), st')
         /\ events st' = events st ++ evs
         /\ (c = Continue <->
             exists text, fs st !! file = Some text
                          /\ (js_length text < 10 \/ 200000 < js_length text))
         /\ length (api_calls evs) = match c with Continue => 0%nat | Normal => 1%nat end).
Proof.
  intros Hclaim.
  destruct (Hclaim demo_world "pkg.js" [] demo_state) as (c & results' & st' & evs & Hrun & Hev & _ & Hcalls).
  vm_compute in Hrun. injection Hrun as <- _ <-.
  simpl in Hev. subst evs. discriminate.
Qed.

(** C5, amended. A pass of the processing loop ends with [continue],
    without a request to the service and without a record, exactly when
    the content of the file was read and its length is below 10 or above
    200000; it sends exactly one request exactly when the content was
    read and has between 10 and 200000 characters; a pass over a file
    whose read throws sends no request and appends a record of failure.
    No pass sends more than one request. *)
Theorem pass_requests (w : World) (file : string) (results : list Result) (st : State) :
  exists c results' st' evs,
    process_file w file results st = (Returns (c, results'), st')
    /\ events st' = events st ++ evs
    /\ (c = Continue <->
        exists text, fs st !! file = Some text
                     /\ (js_length text < 10 \/ 200000 < js_length text))
    /\ (c = Continue -> results' = results /\ api_calls evs = [])
    /\ (length (api_calls evs) = 1%nat <->
        exists text, fs st !! file = Some text /\ 10 <= js_length text <= 200000)
    /\ (length (api_calls evs) <= 1)%nat
    /\ (fs st !! file = None ->
        c = Normal /\ api_calls evs = []
        /\ exists r, results' = results ++ [r] /\ res_file r = file /\ res_success r = false).
Proof.
  destruct (process_file_run w file results st)
    as (c & results' & st' & evs & Hrun & Hev & Hcalls & Hc).
  exists c, results', st', evs. split; [done|]. split; [done|].
  assert (forall text, size_skipped text = false <-> 10 <= js_length text <= 200000) as Hin.
  { intros text. unfold size_skipped, MIN_CONTENT, MAX_CONTENT.
    rewrite orb_false_iff, !N.ltb_ge. reflexivity. }
  assert (forall text, size_skipped text = true
                       <-> js_length text < 10 \/ 200000 < js_length text) as Hout.
  { intros text. apply size_skipped_true. }
  rewrite Hcalls. unfold pass_calls.
  destruct (fs st !! file) as [text|] eqn:Hfile.
  - destruct c.
    + destruct Hc as [-> (text' & [= <-] & Hskip)]. rewrite Hskip. simpl.
      split; [split; [intros _; exists text; split; [done | by apply Hout] | done]|].
      split; [done|]. split; [|split; [lia | done]].
      split; [done|]. intros (text' & [= <-] & Hb). apply Hin in Hb. congruence.
    + destruct Hc as [_ Hkeep]. rewrite (Hkeep text eq_refl). simpl.
      split; [split; [done|]|].
      { intros (text' & [= <-] & Hb). apply Hout in Hb. rewrite (Hkeep text eq_refl) in Hb.
        done. }
      split; [done|]. split; [|split; [lia | done]].
      split; [|done]. intros _. exists text. split; [done|]. apply Hin. by apply Hkeep.
  - destruct c.
    + destruct Hc as [_ (text & [=] & _)].
    + simpl. split; [split; [done | by intros (? & [=] & _)]|].
      split; [done|]. split; [split; [done | by intros (? & [=] & _)]|].
      split; [lia|]. intros _. split; [done|]. split; [done|].
      unfold process_file, bind in Hrun.
      rewrite (process_try_unreadable _ _ _ _ Hfile) in Hrun. simpl in Hrun.
      injection Hrun as <- _. by eexists.
Qed.

Lemma pass_requests_witness :
  (exists c results' st' evs,
     process_file demo_world "tiny.sh" [] demo_state = (Returns (c, results'), st')
     /\ events st' = events demo_state ++ evs
     /\ c = Continue /\ results' = [] /\ api_calls evs = [])
  /\ (exists c results' st' evs,
        process_file demo_world "lib/util.py" [] demo_state = (Returns (c, results'), st')
        /\ events st' = events demo_state ++ evs
        /\ length (api_calls evs) = 1%nat)
  /\ (exists c results' st' evs,
        process_file demo_world "pkg.js" [] demo_state = (Returns (c, results'), st')
        /\ events st' = events demo_state ++ evs
        /\ c = Normal /\ api_calls evs = []).
Proof.
  split; [|split].
  - destruct (pass_requests demo_world "tiny.sh" [] demo_state)
      as (c & results' & st' & evs & Hrun & Hev & Hskip & Hkeep & _).
    exists c, results', st', evs. split; [exact Hrun|]. split; [exact Hev|].
    assert (c = Continue) as Hc.
    { apply Hskip. exists "ls". split; [reflexivity | left; reflexivity]. }
    split; [exact Hc|]. exact (Hkeep Hc).
  - destruct (pass_requests demo_world "lib/util.py" [] demo_state)
      as (c & results' & st' & evs & Hrun & Hev & _ & _ & Hone & _).
    exists c, results', st', evs. split; [exact Hrun|]. split; [exact Hev|].
    apply Hone. exists "def f(x): return x". split; [reflexivity|].
    vm_compute. split; discriminate.
  - destruct (pass_requests demo_world "pkg.js" [] demo_state)
      as (c & results' & st' & evs & Hrun & Hev & _ & _ & _ & _ & Hnone).
    exists c, results', st', evs. split; [exact Hrun|]. split; [exact Hev|].
    destruct (Hnone eq_refl) as (Hc & Hcalls & _). split; [exact Hc | exact Hcalls].
Defined.

(* ===================================================================== *)
(** ** The ceilings of a request *)
(* ===================================================================== *)

Lemma js_length_cons c s : js_length (String c s) = N.succ (js_length s).
Proof. unfold js_length. simpl. lia. Qed.

Lemma js_substring0_prefix n s : exists rest, s = js_substring0 n s +:+ rest.
Proof.
  revert n. induction s as [|c s IH]; intros n; simpl.
  - by exists "".
  - destruct (n =? 0).
    + by exists (String c s).
    + destruct (IH (N.pred n)) as [rest Hrest]. exists rest.
      rewrite str_app_cons. by rewrite <- Hrest.
Qed.

Lemma js_substring0_length n s :
  n <= js_length s -> js_length (js_substring0 n s) = n.
Proof.
  revert n. induction s as [|c s IH]; intros n; simpl.
  - unfold js_length; simpl. lia.
  - rewrite js_length_cons. intros Hn.
    destruct (N.eqb_spec n 0) as [->|Hpos]; [done|].
    rewrite js_length_cons, IH; lia.
Qed.

Lemma truncated_short text : js_length text <= TRUNCATE_AT -> truncated text = text.
Proof.
  intros Hle. unfold truncated.
  destruct (N.ltb_spec TRUNCATE_AT (js_length text)); [lia | done].
Qed.

Lemma truncated_long text :
  TRUNCATE_AT < js_length text ->
  js_length (truncated text) = TRUNCATE_AT /\ exists rest, text = truncated text +:+ rest.
Proof.
  intros Hlt. unfold truncated.
  destruct (N.ltb_spec TRUNCATE_AT (js_length text)); [|lia].
  split; [apply js_substring0_length; lia | apply js_substring0_prefix].
Qed.

(** The code is the last thing in the prompt but for the closing fence. *)
Lemma user_content_code selector filePath language code :
  exists before,
    user_content selector filePath language code = before +:+ code +:+ nl +:+ "```".
Proof.
  eexists. unfold user_content. rewrite <- !str_app_assoc. reflexivity.
Qed.

Lemma pass_calls_ceiling w file data : Forall token_ceiling (pass_calls w file data).
Proof.
  unfold pass_calls. destruct data as [text|]; [|constructor].
  destruct (size_skipped text); repeat constructor.
Qed.

(** *** An invariant of the effects: every request carries the limit *)

Lemma bounded_ret {A} (a : A) : calls_bounded (ret a).
Proof. intros st. exists []. simpl. by rewrite app_nil_r. Qed.

Lemma bounded_throw {A} message : calls_bounded (throw (A := A) message).
Proof. intros st. exists []. simpl. by rewrite app_nil_r. Qed.

Lemma bounded_emit e :
  match e with EvApiCall req => token_ceiling req | _ => True end ->
  calls_bounded (emit e).
Proof.
  intros He st. exists [e]. split; [reflexivity|].
  destruct e; simpl; try constructor; [done | constructor].
Qed.

Lemma bounded_bind {A B} (m : M A) (k : A -> M B) :
  calls_bounded m -> (forall a, calls_bounded (k a)) -> calls_bounded (bind m k).
Proof.
  intros Hm Hk st. unfold bind.
  destruct (Hm st) as (evs1 & Hev1 & Hc1).
  destruct (m st) as [[a|e] st1]; simpl in *.
  - destruct (Hk a st1) as (evs2 & Hev2 & Hc2). exists (evs1 ++ evs2).
    split; [by rewrite Hev2, Hev1, app_assoc|].
    rewrite api_calls_app. by apply Forall_app.
  - by exists evs1.
Qed.

Lemma bounded_try_catch {A} (m : M A) (handler : string -> M A) :
  calls_bounded m -> (forall e, calls_bounded (handler e)) ->
  calls_bounded (try_catch m handler).
Proof.
  intros Hm Hh st. unfold try_catch.
  destruct (Hm st) as (evs1 & Hev1 & Hc1).
  destruct (m st) as [[a|e] st1]; simpl in *.
  - by exists evs1.
  - destruct (Hh e st1) as (evs2 & Hev2 & Hc2). exists (evs1 ++ evs2).
    split; [by rewrite Hev2, Hev1, app_assoc|].
    rewrite api_calls_app. by apply Forall_app.
Qed.

(** A step that leaves the list of effects alone. *)
Lemma bounded_silent {A} (m : M A) :
  (forall st, events (snd (m st)) = events st) -> calls_bounded m.
Proof. intros Hm st. exists []. by rewrite Hm, app_nil_r. Qed.

Ltac bounded :=
  repeat first
    [ apply bounded_ret
    | apply bounded_throw
    | apply bounded_bind; [|intros]
    | apply bounded_try_catch; [|intros]
    | apply bounded_emit; exact I
    | apply bounded_silent; intros; simpl; by repeat case_match
    | case_match ].

Lemma bounded_analyzeCode w filePath code : calls_bounded (analyzeCode w filePath code).
Proof.
  unfold analyzeCode, client_create.
  apply bounded_try_catch; [|intros; apply bounded_ret].
  apply bounded_bind; [|intros; bounded].
  apply bounded_bind; [apply bounded_emit; reflexivity | intros; bounded].
Qed.

Lemma bounded_process_file w file results : calls_bounded (process_file w file results).
Proof.
  unfold process_file, process_try, fs_readFile, fs_mkdir, fs_writeFile, sleep.
  apply bounded_bind; [|intros; bounded].
  apply bounded_try_catch; [|intros; bounded].
  apply bounded_bind; [bounded|]. intros text.
  repeat case_match; try apply bounded_ret.
  all: apply bounded_bind; [apply bounded_analyzeCode|]; intros; bounded.
Qed.

Lemma bounded_process_files w files results : calls_bounded (process_files w files results).
Proof.
  revert results. induction files as [|f files IH]; intros results; simpl.
  - apply bounded_ret.
  - apply bounded_bind; [apply bounded_process_file | intros; apply IH].
Qed.

Lemma bounded_select_files changed files acc : calls_bounded (select_files changed files acc).
Proof.
  revert acc. induction files as [|file files IH]; intros acc; simpl.
  - apply bounded_ret.
  - apply bounded_bind; [|intros; apply IH].
    unfold doc_exists, fs_access. bounded.
Qed.

Lemma bounded_getFilesNeedingDocumentation w files :
  calls_bounded (getFilesNeedingDocumentation w files).
Proof.
  unfold getFilesNeedingDocumentation. destruct (forceAll (config w)); [apply bounded_ret|].
  apply bounded_bind; [|intros; apply bounded_select_files].
  unfold getChangedFiles, execSync. bounded.
Qed.

(** In a whole run of the script every request carries the token limit. *)
Lemma generateDocumentation_ceiling w : calls_bounded (generateDocumentation w).
Proof.
  unfold generateDocumentation, fs_mkdir, findSourceFiles, generateSummary, fs_writeFile.
  apply bounded_bind; [bounded|]. intros _.
  apply bounded_bind; [bounded|]. intros allSourceFiles.
  destruct (length allSourceFiles =? 0)%nat; [apply bounded_ret|].
  apply bounded_bind; [apply bounded_getFilesNeedingDocumentation|]. intros filesToProcess.
  destruct (length filesToProcess =? 0)%nat; [apply bounded_ret|].
  apply bounded_bind; [apply bounded_process_files|]. intros results. bounded.
Qed.

(** C6. Every request to the service carries fixed ceilings. In a whole
    run of the script each request has a completion-token limit of 16000.
    A pass over a file whose content has between 10 and 200000 characters
    sends one request, with that limit, whose prompt ends with the code
    and the closing fence; the code is the whole content when the content
    has at most 100000 characters, and otherwise its first 100000
    characters. *)
Theorem request_ceilings (w : World) (file : string) (results : list Result)
    (st : State) (text : string) :
  (exists evs,
     events (snd (generateDocumentation w st)) = events st ++ evs
     /\ Forall (fun req => max_completion_tokens req = 16000) (api_calls evs))
  /\ (fs st !! file = Some text ->
      10 <= js_length text <= 200000 ->
      exists r st' evs req code language before,
        process_file w file results st = (Returns r, st')
        /\ events st' = events st ++ evs
        /\ api_calls evs = [req]
        /\ max_completion_tokens req = 16000
        /\ messages req
           = [ system_message;
               {| role := "user";
                  content := user_content (docType (config w)) file language code |} ]
        /\ user_content (docType (config w)) file language code
           = before +:+ code +:+ nl +:+ "```"
        /\ (js_length text <= 100000 -> code = text)
        /\ (100000 < js_length text ->
            js_length code = 100000 /\ exists rest, text = code +:+ rest)).
Proof.
  split; [apply (generateDocumentation_ceiling w st)|].
  intros Hfile [Hmin Hmax].
  assert (size_skipped text = false) as Hsize.
  { unfold size_skipped, MIN_CONTENT, MAX_CONTENT. apply orb_false_intro; apply N.ltb_ge; lia. }
  destruct (process_file_run w file results st)
    as (c & results' & st' & evs & Hrun & Hev & Hcalls & _).
  rewrite Hfile in Hcalls. unfold pass_calls in Hcalls. rewrite Hsize in Hcalls.
  destruct (user_content_code (docType (config w)) file
              (getLanguage (path.extname file)) (truncated text)) as [before Hbefore].
  exists (c, results'), st', evs, (build_request w file (truncated text)), (truncated text),
         (getLanguage (path.extname file)), before.
  repeat split; try done.
  - apply truncated_short.
  - by apply truncated_long.
  - by apply truncated_long.
Qed.

Lemma request_ceilings_witness :
  fs demo_state !! "lib/util.py" = Some "def f(x): return x"
  /\ 10 <= js_length "def f(x): return x" <= 200000
  /\ exists r st' evs req code language before,
      process_file demo_world "lib/util.py" [] demo_state = (Returns r, st')
      /\ events st' = events demo_state ++ evs
      /\ api_calls evs = [req]
      /\ max_completion_tokens req = 16000
      /\ messages req
         = [ system_message;
             {| role := "user";
                content := user_content (docType (config demo_world)) "lib/util.py" language code |} ]
      /\ user_content (docType (config demo_world)) "lib/util.py" language code
         = before +:+ code +:+ nl +:+ "```"
      /\ (js_length "def f(x): return x" <= 100000 -> code = "def f(x): return x")
      /\ (100000 < js_length "def f(x): return x" ->
          js_length code = 100000 /\ exists rest, "def f(x): return x" = code +:+ rest).
Proof.
  split; [reflexivity|]. split; [vm_compute; split; discriminate|].
  apply (request_ceilings demo_world "lib/util.py" [] demo_state "def f(x): return x").
  - reflexivity.
  - vm_compute; split; discriminate.
Defined.

(* ===================================================================== *)
(** ** What the results list records *)
(* ===================================================================== *)

(** A selected file of two characters: the run leaves no record of it. *)
Example tiny_file_run :
  results_of (process_files demo_world [ {| ftp_file := "tiny.sh"; ftp_reason := "missing-docs" |} ]
                [] demo_state) = [].
Proof. reflexivity. Qed.

(** C1, as stated, fails: it is not so that every selected file whose
    content is shorter than 10 or longer than 200000 characters has a
    failure recorded in the results list. The file [tiny.sh] of
    [demo_state] has two characters and the results list stays empty. *)
Lemma size_skip_not_recorded :
  ~ (forall (w : World) (st : State) (file text reason : string),
       fs st !! file = Some text ->
       js_length text < 10 \/ 200000 < js_length text ->
       exists r,
         r ∈ results_of (process_files w [ {| ftp_file := file; ftp_reason := reason |} ] [] st)
         /\ res_file r = file /\ res_success r = false).
Proof.
  intros Hclaim.
  destruct (Hclaim demo_world demo_state "tiny.sh" "ls" "missing-docs") as (r & Hr & _).
  - reflexivity.
  - left. reflexivity.
  - rewrite tiny_file_run in Hr. by apply elem_of_nil in Hr.
Qed.

(** C1, amended. A pass over a file whose content is shorter than 10 or
    longer than 200000 characters leaves the results list as it was: the
    file is skipped, not recorded. A pass in which the service fails, or
    answers with no choice or with no or empty content, appends to the
    results list a record for the file with [success = false] and error
    [No documentation generated]. *)
Theorem size_skip_leaves_results (w : World) (file : string) (results : list Result)
    (st : State) (text : string) :
  fs st !! file = Some text ->
  (js_length text < 10 \/ 200000 < js_length text ->
   exists st', process_file w file results st = (Returns (Continue, results), st'))
  /\ (10 <= js_length text <= 200000 ->
      truthy_text (api_text w (build_request w file (truncated text))) = None ->
      exists st',
        process_file w file results st
        = (Returns (Normal, results ++
             [ {| res_file := file; res_docPath := None; res_success := false;
                  res_error := Some "No documentation generated" |} ]), st')).
Proof.
  intros Hfile. split.
  - intros Hsize. change 10 with MIN_CONTENT in Hsize. change 200000 with MAX_CONTENT in Hsize.
    apply size_skipped_true in Hsize.
    unfold process_file, bind. rewrite (process_try_skipped _ _ _ _ _ Hfile Hsize).
    simpl. eauto.
  - intros [Hmin Hmax] Hnone.
    assert (size_skipped text = false) as Hsize.
    { unfold size_skipped, MIN_CONTENT, MAX_CONTENT. apply orb_false_intro; apply N.ltb_ge; lia. }
    destruct (process_try_analyzed w file results st text Hfile Hsize)
      as (r & st1 & evs & Hrun & _ & _ & _ & Hr).
    rewrite (Hr Hnone) in Hrun.
    unfold process_file, bind. rewrite Hrun. simpl. unfold sleep, emit. eauto.
Qed.

Lemma size_skip_leaves_results_witness :
  (exists st', process_file demo_world "tiny.sh" [] demo_state = (Returns (Continue, []), st'))
  /\ (exists st',
        process_file demo_world "tools/sync.ps1" [] demo_state
        = (Returns (Normal, [] ++
             [ {| res_file := "tools/sync.ps1"; res_docPath := None; res_success := false;
                  res_error := Some "No documentation generated" |} ]), st')).
Proof.
  split.
  - apply (size_skip_leaves_results demo_world "tiny.sh" [] demo_state "ls").
    + reflexivity.
    + left. reflexivity.
  - apply (size_skip_leaves_results demo_world "tools/sync.ps1" [] demo_state "git fetch origin").
    + reflexivity.
    + vm_compute. split; discriminate.
    + reflexivity.
Defined.

(** The whole script on the demo world: [tiny.sh] is selected and skipped,
    and the summary counts three files, not four. *)
Example demo_run_summary :
  fs (snd (main demo_world demo_state)) !! "Documentation/SUMMARY.md"
  = Some (summary_text "2024-01-01T00:00:00.000Z"
            [ succeeded "src/app.js" "Documentation/src/app.md";
              succeeded "lib/util.py" "Documentation/lib/util.md";
              failed_with "tools/sync.ps1" "No documentation generated" ])
  /\ fst (main demo_world demo_state) = 0.
Proof. vm_compute. split; reflexivity. Qed.

(* ===================================================================== *)
(** ** The summary report *)
(* ===================================================================== *)

Lemma filter_length_number (b : bool) (results : list Result) :
  length (List.filter (fun r => Bool.eqb (res_success r) b) results)
  = number_with_success b results.
Proof.
  induction results as [|r results IH]; simpl; [done|].
  destruct (Bool.eqb (res_success r) b); simpl; by rewrite IH.
Qed.

Lemma successful_of_length results :
  length (successful_of results) = number_with_success true results.
Proof.
  rewrite <- filter_length_number. unfold successful_of. f_equal.
  apply List.filter_ext. intros r. by destruct (res_success r).
Qed.

Lemma failed_of_length results :
  length (failed_of results) = number_with_success false results.
Proof.
  rewrite <- filter_length_number. reflexivity.
Qed.

Lemma number_with_success_total results :
  (number_with_success true results + number_with_success false results)%nat
  = length results.
Proof.
  induction results as [|r results IH]; simpl; [done|].
  destruct (res_success r); simpl; lia.
Qed.

(** C3. The counts of the summary report are correct. For every results
    list, [generateSummary] writes to [Documentation/SUMMARY.md] (and, when
    the write does not fail, leaves there) a report made of the heading,
    the statistics and the two lists, in which the total is the length of
    the list, the number successfully documented is the number of records
    with [success = true] and the number failed is the number of records
    with [success = false]; the last two add up to the total. *)
Theorem summary_counts_correct (w : World) (results : list Result) (st : State) :
  let total := length results in
  let ok := number_with_success true results in
  let ko := number_with_success false results in
  let report :=
    ("# Documentation Summary" +:+ nl +:+ nl +:+
     "Generated: " +:+ now_iso w +:+ nl +:+ nl +:+
     "## Statistics" +:+ nl +:+ nl) +:+
    ("- Total files processed: " +:+ js_number total +:+ nl +:+
     "- Successfully documented: " +:+ js_number ok +:+ nl +:+
     "- Failed: " +:+ js_number ko +:+ nl +:+ nl) +:+
    (generated_section (successful_of results) +:+ failed_section (failed_of results)) in
  (exists out st',
     generateSummary w results st = (out, st')
     /\ events st' = events st ++ [EvWriteFile "Documentation/SUMMARY.md" report]
     /\ (writeFile_error w "Documentation/SUMMARY.md" = None ->
         out = Returns tt /\ fs st' !! "Documentation/SUMMARY.md" = Some report))
  /\ length (successful_of results) = ok
  /\ length (failed_of results) = ko
  /\ (ok + ko)%nat = total.
Proof.
  intros total ok ko report.
  assert (summary_text (now_iso w) results = report) as Htext.
  { unfold summary_text, statistics, report, ok, ko, total.
    rewrite successful_of_length, failed_of_length.
    rewrite !str_app_assoc. reflexivity. }
  split; [|split; [apply successful_of_length|split; [apply failed_of_length|]]].
  - unfold generateSummary, fs_writeFile, bind, emit, throw. rewrite Htext. simpl.
    destruct (writeFile_error w "Documentation/SUMMARY.md") as [e|].
    + eexists _, _. split; [reflexivity|]. split; [reflexivity | discriminate].
    + eexists _, _. split; [reflexivity|]. split; [reflexivity|]. intros _.
      split; [reflexivity | apply lookup_insert_eq].
  - apply number_with_success_total.
Qed.

Lemma summary_counts_correct_witness :
  writeFile_error demo_world "Documentation/SUMMARY.md" = None
  /\ exists out st',
       generateSummary demo_world
         [ succeeded "a.js" "Documentation/a.md";
           failed_with "b.py" "No documentation generated" ] demo_state = (out, st')
       /\ out = Returns tt
       /\ fs st' !! "Documentation/SUMMARY.md"
          = Some ("# Documentation Summary" +:+ nl +:+ nl +:+
                  "Generated: 2024-01-01T00:00:00.000Z" +:+ nl +:+ nl +:+
                  "## Statistics" +:+ nl +:+ nl +:+
                  "- Total files processed: 2" +:+ nl +:+
                  "- Successfully documented: 1" +:+ nl +:+
                  "- Failed: 1" +:+ nl +:+ nl +:+
                  "## Generated Documentation" +:+ nl +:+ nl +:+
                  "- Documentation/a.md" +:+ nl +:+ nl +:+
                  "## Failed Files" +:+ nl +:+ nl +:+
                  "- b.py: No documentation generated" +:+ nl).
Proof.
  split; [reflexivity|].
  destruct (summary_counts_correct demo_world
              [ succeeded "a.js" "Documentation/a.md";
                failed_with "b.py" "No documentation generated" ] demo_state)
    as [(out & st' & Hrun & _ & Hwritten) _].
  exists out, st'. split; [exact Hrun|].
  destruct (Hwritten eq_refl) as [Hout Hfile]. split; [exact Hout|].
  rewrite Hfile. vm_compute. reflexivity.
Defined.

Example summary_of_two :
  summary_text "2024-01-01T00:00:00.000Z"
    [ succeeded "a.js" "Documentation/a.md"; failed_with "b.py" "No documentation generated" ]
  = "# Documentation Summary

Generated: 2024-01-01T00:00:00.000Z

## Statistics

- Total files processed: 2
- Successfully documented: 1
- Failed: 1

## Generated Documentation

- Documentation/a.md

## Failed Files

- b.py: No documentation generated
".
Proof. vm_compute. reflexivity. Qed.

(* ===================================================================== *)
(** ** The prompt selector *)
(* ===================================================================== *)

Lemma assoc_None key props : key ∉ map fst props -> assoc key props = None.
Proof.
  induction props as [|[k v] props IH]; simpl; [done|].
  intros Hnot. apply not_elem_of_cons in Hnot as [Hne Hnot].
  destruct (String.eqb_spec k key); [congruence | auto].
Qed.

(** A selector that names neither an own property of [prompts] nor a
    property inherited from [Object.prototype] selects the [api] prompt. *)
Lemma selected_prompt_fallback selector :
  selector ∉ own_prompt_keys -> selector ∉ inherited_keys ->
  selected_prompt selector = prompt_api.
Proof.
  intros Hown Hinh. unfold selected_prompt, js_get.
  rewrite (assoc_None _ _ Hown), (assoc_None _ _ Hinh). reflexivity.
Qed.

(** With [DOC_TYPE] unset the selector is [all], which selects the [api]
    prompt. *)
Lemma default_selector_is_api (w : World) :
  environ w !! "DOC_TYPE" = None ->
  docType (config w) = "all" /\ selected_prompt (docType (config w)) = prompt_api.
Proof.
  intros Hunset. unfold config, load_config, env_or; simpl. rewrite Hunset.
  split; reflexivity.
Qed.

(** C9. The selector [constructor] is none of [api], [codeComments],
    [readme] and [architecture], yet [analyzeCode] does not build its
    prompt with the [api] prompt: [prompts['constructor']] is the function
    inherited from [Object.prototype], which is truthy, so the template
    literal receives its source text. *)
Theorem inherited_selector_not_api :
  ("constructor" ∉ own_prompt_keys)
  /\ selected_prompt "constructor" = "function Object() { [native code] }"
  /\ selected_prompt "constructor" <> prompt_api
  /\ (content <$> build_messages "constructor" "src/app.js" "let x = 1;")
     <> (content <$> build_messages "api" "src/app.js" "let x = 1;").
Proof.
  split; [|split; [|split]].
  - rewrite list_elem_of_In. simpl. intuition discriminate.
  - reflexivity.
  - discriminate.
  - vm_compute. discriminate.
Qed.

(* ===================================================================== *)
(** ** Properties of Sync-GitRepo *)
(* ===================================================================== *)

Section SyncGitRepo.

Variable host : Host.
Variable RepoPath : string.

(** The handler cannot fail: it only prints. *)
Lemma sync_handler_completes trace error :
  run_block host trace (sync_handler error)
  = (trace ++ [Write_Host ("Error syncing repository: " +:+ error) Red], None).
Proof. reflexivity. Qed.

(** C7, amended. [Sync-GitRepo] issues its version-control commands in
    this order: fetch from [origin], hard reset to [origin/<Branch>], pull
    [<Branch>] from [origin], where [<Branch>] is [master] when the
    parameter is not supplied. A call in which no command of the body
    raises a terminating error issues exactly these three, whatever the
    exit codes of [git]. A call in which a command raises a terminating
    error runs the body up to that command and nothing of it after: the
    version-control commands it issues are those up to that command, the
    first [j] of the three. *)
Theorem Sync_GitRepo_commands (Branch : option string) :
  let B := default "master" Branch in
  let three := [ ["fetch"; "origin"];
                 ["reset"; "--hard"; "origin/" +:+ B];
                 ["pull"; "origin"; B] ] in
  let body := sync_body RepoPath B in
  let issued := git_commands (fst (Sync_GitRepo host RepoPath Branch)) in
  (snd (run_block host [] body) = None -> issued = three)
  /\ (forall error, snd (run_block host [] body) = Some error ->
      exists k c j,
        body !! k = Some c
        /\ invoke host (take k body) c = TerminatingError error
        /\ fst (run_block host [] body) = take (S k) body
        /\ issued = git_commands (take (S k) body)
        /\ (j <= 3)%nat /\ issued = take j three
        /\ (j = 3%nat -> c = git ["pull"; "origin"; B])).
Proof.
  intros B three body issued. unfold issued, body, Sync_GitRepo, ps_try_catch. fold B.
  unfold sync_body. simpl.
  destruct (host [] (Set_Location RepoPath)) as [c0|e0] eqn:H0; simpl.
  2: { split; [discriminate|]. intros error [= <-].
       exists 0%nat, (Set_Location RepoPath), 0%nat. simpl. repeat split; try done; lia. }
  destruct (host _ (git ["fetch"; "origin"])) as [c1|e1] eqn:H1; simpl.
  2: { split; [discriminate|]. intros error [= <-].
       exists 2%nat, (git ["fetch"; "origin"]), 1%nat. simpl. repeat split; try done; lia. }
  destruct (host _ (git ["reset"; "--hard"; "origin/" +:+ B])) as [c2|e2] eqn:H2; simpl.
  2: { split; [discriminate|]. intros error [= <-].
       exists 4%nat, (git ["reset"; "--hard"; "origin/" +:+ B]), 2%nat. simpl.
       repeat split; try done; lia. }
  destruct (host _ (git ["pull"; "origin"; B])) as [c3|e3] eqn:H3; simpl.
  2: { split; [discriminate|]. intros error [= <-].
       exists 6%nat, (git ["pull"; "origin"; B]), 3%nat. simpl. repeat split; try done; lia. }
  split; [done | discriminate].
Qed.

(** C8. [Sync-GitRepo] never propagates an error to its caller: the call
    returns normally whatever the commands of its body do, and when one
    of them raises a terminating error the only thing that follows is
    the printed message carrying that error; nothing is retried and
    nothing is thrown again. *)
Theorem Sync_GitRepo_swallows_errors (Branch : option string) :
  let B := default "master" Branch in
  snd (Sync_GitRepo host RepoPath Branch) = ReturnsNormally
  /\ fst (Sync_GitRepo host RepoPath Branch)
     = match snd (run_block host [] (sync_body RepoPath B)) with
       | None => fst (run_block host [] (sync_body RepoPath B))
       | Some error =>
           fst (run_block host [] (sync_body RepoPath B))
           ++ [Write_Host ("Error syncing repository: " +:+ error) Red]
       end.
Proof.
  intros B. unfold Sync_GitRepo, ps_try_catch. fold B.
  destruct (run_block host [] (sync_body RepoPath B)) as [trace [error|]] eqn:Hrun.
  - rewrite sync_handler_completes. done.
  - done.
Qed.

End SyncGitRepo.

(** C7, as stated, fails: it is not so that every call issues the three
    commands. On a machine without [git] the first of them raises a
    terminating error, and the reset and the pull are never issued. *)
Lemma Sync_GitRepo_not_always_three :
  ~ (forall (host : Host) (RepoPath : string) (Branch : option string),
       git_commands (fst (Sync_GitRepo host RepoPath Branch))
       = [ ["fetch"; "origin"];
           ["reset"; "--hard"; "origin/" +:+ default "master" Branch];
           ["pull"; "origin"; default "master" Branch] ]).
Proof.
  intros Hclaim. specialize (Hclaim no_git_host "C:\repo" None). discriminate.
Qed.

Lemma Sync_GitRepo_commands_witness :
  (snd (run_block quiet_host [] (sync_body "C:\repo" "master")) = None
   /\ git_commands (fst (Sync_GitRepo quiet_host "C:\repo" None))
      = [ ["fetch"; "origin"]; ["reset"; "--hard"; "origin/master"];
          ["pull"; "origin"; "master"] ])
  /\ (snd (run_block no_git_host [] (sync_body "C:\repo" "main"))
      = Some "The term 'git' is not recognized"
      /\ exists k c j,
           sync_body "C:\repo" "main" !! k = Some c
           /\ invoke no_git_host (take k (sync_body "C:\repo" "main")) c
              = TerminatingError "The term 'git' is not recognized"
           /\ fst (run_block no_git_host [] (sync_body "C:\repo" "main"))
              = take (S k) (sync_body "C:\repo" "main")
           /\ git_commands (fst (Sync_GitRepo no_git_host "C:\repo" (Some "main")))
              = git_commands (take (S k) (sync_body "C:\repo" "main"))
           /\ (j <= 3)%nat
           /\ git_commands (fst (Sync_GitRepo no_git_host "C:\repo" (Some "main")))
              = take j [ ["fetch"; "origin"]; ["reset"; "--hard"; "origin/" +:+ "main"];
                         ["pull"; "origin"; "main"] ]
           /\ (j = 3%nat -> c = git ["pull"; "origin"; "main"])).
Proof.
  split.
  - split; [reflexivity|].
    apply (Sync_GitRepo_commands quiet_host "C:\repo" None). reflexivity.
  - split; [reflexivity|].
    apply (Sync_GitRepo_commands no_git_host "C:\repo" (Some "main")). reflexivity.
Defined.

Example Sync_GitRepo_without_git :
  Sync_GitRepo no_git_host "C:\repo" (Some "main")
  = ([ Set_Location "C:\repo";
       Write_Host "Fetching latest changes..." Yellow;
       git ["fetch"; "origin"];
       Write_Host "Error syncing repository: The term 'git' is not recognized" Red ],
     ReturnsNormally).
Proof. reflexivity. Qed.

(* ===================================================================== *)
(** ** More on documentation paths *)
(* ===================================================================== *)

Lemma regex_match_inv s :
  ext_regex_matches_here s = true ->
  exists ext, ext ∈ extensions /\ s = String "."%char ext.
Proof.
  destruct s as [|c s]; [discriminate|].
  destruct c as [[] [] [] [] [] [] [] []]; try discriminate.
  rewrite regex_here_dot. intros Hex.
  apply existsb_exists in Hex as (ext & Hin & Heq).
  apply String.eqb_eq in Heq as ->. exists ext. split; [by apply list_elem_of_In | done].
Qed.

(** X1. [replace_ext] changes a path only by replacing a recognized extension
    at its end: a path it changes is some [stem] followed by a dot and one
    of the extensions, and the result is [stem] followed by [.md]. Every
    other path, such as [README.md] or [Makefile], comes back as it is. *)
Theorem replace_ext_only_extension (s : string) :
  replace_ext s <> s ->
  exists stem ext,
    ext ∈ extensions /\ s = stem +:+ "." +:+ ext /\ replace_ext s = stem +:+ ".md".
Proof.
  induction s as [|c s IH].
  - intros Hne. by destruct Hne.
  - rewrite replace_ext_cons.
    destruct (ext_regex_matches_here (String c s)) eqn:Hm.
    + intros _. apply regex_match_inv in Hm as (ext & Hin & ->).
      exists "", ext. done.
    + intros Hne. destruct IH as (stem & ext & Hin & -> & Hrep); [congruence|].
      exists (String c stem), ext. split; [done|]. split; [done|].
      by rewrite Hrep.
Qed.

Lemma replace_ext_only_extension_witness :
  replace_ext "src/app.test.ts" <> "src/app.test.ts"
  /\ exists stem ext,
    ext ∈ extensions /\ "src/app.test.ts" = stem +:+ "." +:+ ext
    /\ replace_ext "src/app.test.ts" = stem +:+ ".md".
Proof.
  split; [discriminate|].
  apply (replace_ext_only_extension "src/app.test.ts"). discriminate.
Defined.

(** X2. Two source files that differ only in their recognized extension have
    the same documentation path: the documentation of one is found, and
    overwritten, as the documentation of the other. *)
Theorem doc_path_collision (stem ext1 ext2 : string) :
  ext1 ∈ extensions -> ext2 ∈ extensions ->
  docPath_written (stem +:+ "." +:+ ext1) = docPath_checked (stem +:+ "." +:+ ext2)
  /\ docPath_written (stem +:+ "." +:+ ext1) = docPath_written (stem +:+ "." +:+ ext2).
Proof.
  intros H1 H2. unfold docPath_written, docPath_checked.
  change ("." +:+ ext1) with (String "."%char ext1).
  change ("." +:+ ext2) with (String "."%char ext2).
  by rewrite !replace_ext_suffix.
Qed.

Lemma doc_path_collision_witness :
  docPath_written ("src/index" +:+ "." +:+ "js") = docPath_checked ("src/index" +:+ "." +:+ "ts")
  /\ docPath_written ("src/index" +:+ "." +:+ "js") = docPath_written ("src/index" +:+ "." +:+ "ts").
Proof.
  apply (doc_path_collision "src/index" "js" "ts").
  - apply list_elem_of_In. simpl. auto 10.
  - apply list_elem_of_In. simpl. auto 10.
Defined.

(* ===================================================================== *)
(** ** The content sent to the service *)
(* ===================================================================== *)

(** X3. The code put into a request is a prefix of the content of the file,
    and its length is the smaller of the length of the content and
    100000: never more than 100000 characters are sent. *)
Theorem truncated_bound (text : string) :
  js_length (truncated text) = N.min (js_length text) 100000
  /\ exists rest, text = truncated text +:+ rest.
Proof.
  destruct (N.le_gt_cases (js_length text) TRUNCATE_AT) as [Hle|Hgt].
  - rewrite (truncated_short _ Hle). unfold TRUNCATE_AT in Hle. split; [lia|].
    exists "". by rewrite str_app_nil_r.
  - destruct (truncated_long _ Hgt) as [Hlen Hrest]. unfold TRUNCATE_AT in *.
    split; [lia | done].
Qed.

(* ===================================================================== *)
(** ** The language of a file *)
(* ===================================================================== *)

Lemma has_char_rev c s : has_char c (String.rev s) = has_char c s.
Proof.
  induction s as [|a s IH]; [done|].
  rewrite str_rev_cons, has_char_app, IH. simpl. by rewrite orb_false_r, orb_comm.
Qed.

Lemma span_segment_app t u :
  has_char path.sep t = false ->
  path.span_segment (t +:+ u)
  = (t +:+ fst (path.span_segment u), snd (path.span_segment u)).
Proof.
  induction t as [|a t IH]; intros Hno.
  - rewrite !str_app_nil_l. by destruct (path.span_segment u).
  - simpl in Hno. apply orb_false_elim in Hno as [Ha Ht].
    rewrite str_app_cons. simpl. rewrite Ha, (IH Ht). reflexivity.
Qed.

Lemma span_dot_app t u :
  has_char "." t = false ->
  path.span_dot (t +:+ String "."%char u) = Some (t +:+ ".", u).
Proof.
  induction t as [|a t IH]; intros Hno.
  - reflexivity.
  - simpl in Hno. apply orb_false_elim in Hno as [Ha Ht].
    rewrite str_app_cons. simpl. rewrite Ha, (IH Ht). reflexivity.
Qed.

Lemma span_dot_ends_with_dot s pre rest :
  path.span_dot s = Some (pre, rest) -> exists pre', pre = pre' +:+ ".".
Proof.
  revert pre rest. induction s as [|a s IH]; intros pre rest; simpl; [discriminate|].
  destruct (Ascii.eqb_spec a ".") as [->|Hne].
  - intros [= <- <-]. by exists "".
  - destruct (path.span_dot s) as [[pre0 rest0]|]; [|discriminate].
    intros [= <- <-]. destruct (IH pre0 rest0 eq_refl) as [pre' ->].
    by exists (String a pre').
Qed.

(** [extname] gives the empty string or a string that begins with a
    dot. *)
Lemma extname_shape p :
  path.extname p = "" \/ exists s, path.extname p = String "."%char s.
Proof.
  unfold path.extname.
  destruct (path.span_dot _) as [[ext_rev before_rev]|] eqn:Hspan; [|by left].
  destruct (_ || _); [by left|]. right.
  apply span_dot_ends_with_dot in Hspan as [pre' ->].
  rewrite str_rev_app. by exists (String.rev pre').
Qed.

Lemma assoc_Some key props v : assoc key props = Some v -> (key, v) ∈ props.
Proof.
  induction props as [|[k v'] props IH]; simpl; [discriminate|].
  destruct (String.eqb_spec k key) as [->|Hne].
  - intros [= ->]. apply list_elem_of_here.
  - intros Hv. apply list_elem_of_further. by apply IH.
Qed.

Lemma langMap_values k v : (k, v) ∈ langMap -> exists lang, v = JStr lang /\ str_truthy lang = true.
Proof.
  intros Hin. apply list_elem_of_In in Hin. simpl in Hin.
  repeat (destruct Hin as [[= <- <-]|Hin]; [eexists; split; reflexivity|]).
  by destruct Hin.
Qed.

(** X4. The language computed for a path is the default [plaintext] or one of
    the languages of [langMap]: what [extname] returns is empty or begins
    with a dot, so the lookup in the object literal never ends on a
    property inherited from [Object.prototype]. *)
Theorem getLanguage_of_extname (p : string) :
  getLanguage (path.extname p) = "plaintext"
  \/ (path.extname p, JStr (getLanguage (path.extname p))) ∈ langMap.
Proof.
  unfold getLanguage, js_get.
  destruct (assoc (path.extname p) langMap) as [v|] eqn:Hlang.
  - right. apply assoc_Some in Hlang.
    destruct (langMap_values _ _ Hlang) as (lang & -> & Htruthy).
    unfold js_or. simpl. by rewrite Htruthy.
  - left. destruct (extname_shape p) as [->|[s ->]]; reflexivity.
Qed.

(** [langMap] has an entry for each extension of the regular expression. *)
Lemma langMap_covers_extensions ext :
  ext ∈ extensions ->
  exists lang, assoc (String "."%char ext) langMap = Some (JStr lang)
               /\ str_truthy lang = true /\ lang <> "plaintext".
Proof.
  intros Hin. apply list_elem_of_In in Hin. simpl in Hin.
  repeat (destruct Hin as [<-|Hin];
          [eexists; split; [reflexivity|]; split; [reflexivity | discriminate]|]).
  by destruct Hin.
Qed.

Lemma extensions_nonempty_rev ext :
  ext ∈ extensions -> exists a r, String.rev ext = String a r.
Proof.
  intros Hin. apply list_elem_of_In in Hin. simpl in Hin.
  repeat (destruct Hin as [<-|Hin]; [by eexists _, _|]).
  by destruct Hin.
Qed.

(** The extension of a path with a recognized extension after a base name
    that is not empty. *)
Lemma extname_recognized stem ext :
  ext ∈ extensions -> stem <> "" -> path.ends_with_sep stem = false ->
  path.extname (stem +:+ String "."%char ext) = String "."%char ext.
Proof.
  intros Hin Hstem Hend. unfold path.extname.
  rewrite str_rev_app, str_rev_cons, str_app_assoc.
  change (String "."%char "" +:+ String.rev stem) with (String "."%char (String.rev stem)).
  pose proof (extensions_no_sep _ Hin) as Hnosep. rewrite <- (has_char_rev _ ext) in Hnosep.
  pose proof (extensions_no_dot _ Hin) as Hnodot. rewrite <- (has_char_rev _ ext) in Hnodot.
  destruct (extensions_nonempty_rev _ Hin) as (a & r & Hrev).
  rewrite Hrev in *. simpl in Hnosep, Hnodot.
  apply orb_false_elim in Hnosep as [Ha_sep Hr_sep].
  apply orb_false_elim in Hnodot as [Ha_dot Hr_dot].
  rewrite str_app_cons. cbn [path.drop_seps]. rewrite Ha_sep.
  rewrite <- str_app_cons.
  rewrite span_segment_app by (simpl; by rewrite Ha_sep, Hr_sep).
  cbn [fst].
  (* the base name, reversed: the segment the reversed stem begins with *)
  unfold path.ends_with_sep in Hend.
  destruct (String.rev stem) as [|b rs] eqn:Hrs.
  { apply (f_equal String.rev) in Hrs. rewrite str_rev_involutive in Hrs. done. }
  simpl in Hend.
  change (path.span_segment (String "."%char (String b rs)))
    with (let '(seg, rest) := path.span_segment (String b rs) in (String "."%char seg, rest)).
  simpl path.span_segment at 1. rewrite Hend.
  destruct (path.span_segment rs) as [seg rest]. cbn [fst].
  rewrite span_dot_app by (simpl; by rewrite Ha_dot, Hr_dot).
  simpl String.eqb at 1. cbn [orb].
  rewrite str_app_cons. unfold path.dotdot.
  simpl String.eqb. rewrite Ha_dot. cbn [negb].
  rewrite str_rev_app. change (String.rev ".") with ".".
  rewrite <- Hrev, str_rev_involutive. reflexivity.
Qed.

(** X5. A source file with a recognized extension and a base name that is not
    empty is never sent as [plaintext]: its extension is found by
    [extname], and [langMap] has a language for it. *)
Theorem recognized_extension_has_language (stem ext : string) :
  ext ∈ extensions -> stem <> "" -> path.ends_with_sep stem = false ->
  path.extname (stem +:+ "." +:+ ext) = "." +:+ ext
  /\ (path.extname (stem +:+ "." +:+ ext), JStr (getLanguage (path.extname (stem +:+ "." +:+ ext))))
     ∈ langMap
  /\ getLanguage (path.extname (stem +:+ "." +:+ ext)) <> "plaintext".
Proof.
  intros Hin Hstem Hend.
  change ("." +:+ ext) with (String "."%char ext).
  rewrite (extname_recognized _ _ Hin Hstem Hend).
  destruct (langMap_covers_extensions _ Hin) as (lang & Hlang & Htruthy & Hne).
  assert (getLanguage (String "."%char ext) = lang) as ->.
  { unfold getLanguage, js_get. rewrite Hlang. unfold js_or. simpl. by rewrite Htruthy. }
  split; [done|]. split; [by apply assoc_Some | done].
Qed.

Lemma recognized_extension_has_language_witness :
  path.extname ("tools/Sync.Repo" +:+ "." +:+ "psm1") = "." +:+ "psm1"
  /\ (path.extname ("tools/Sync.Repo" +:+ "." +:+ "psm1"),
      JStr (getLanguage (path.extname ("tools/Sync.Repo" +:+ "." +:+ "psm1")))) ∈ langMap
  /\ getLanguage (path.extname ("tools/Sync.Repo" +:+ "." +:+ "psm1")) <> "plaintext".
Proof.
  apply (recognized_extension_has_language "tools/Sync.Repo" "psm1").
  - apply list_elem_of_In. simpl. auto 10.
  - discriminate.
  - reflexivity.
Defined.

(* ===================================================================== *)
(** ** Reading the output of git *)
(* ===================================================================== *)

Lemma clean_name_inv name :
  clean_name name = true ->
  name <> "" /\ has_char "010"%char name = false
  /\ starts_with_space name = false /\ starts_with_space (String.rev name) = false.
Proof.
  unfold clean_name. rewrite !andb_true_iff, !negb_true_iff.
  intros [[[Hne Hlf] Hs] He]. repeat split; try done.
  intros ->. discriminate.
Qed.

Lemma drop_space_id s : starts_with_space s = false -> drop_space s = s.
Proof. destruct s as [|c s]; simpl; [done|]. by intros ->. Qed.

Lemma starts_with_space_app s t :
  s <> "" -> starts_with_space (s +:+ t) = starts_with_space s.
Proof. by destruct s. Qed.

Lemma str_rev_nonempty s : s <> "" -> String.rev s <> "".
Proof.
  intros Hne Hrev. apply (f_equal String.rev) in Hrev.
  by rewrite str_rev_involutive in Hrev.
Qed.

Lemma str_app_nonempty s t : s <> "" -> s +:+ t <> "".
Proof. by destruct s. Qed.

(** Trimming removes the line feed that ends the output and nothing
    else. *)
Lemma js_trim_line s :
  s <> "" -> starts_with_space s = false -> starts_with_space (String.rev s) = false ->
  js_trim (s +:+ nl) = s.
Proof.
  intros Hne Hstart Hend. unfold js_trim.
  rewrite (drop_space_id (s +:+ nl)) by (by rewrite starts_with_space_app).
  rewrite str_rev_app. change (String.rev nl) with nl.
  change (nl +:+ String.rev s) with (String "010"%char (String.rev s)).
  cbn [drop_space js_is_space]. rewrite (drop_space_id _ Hend).
  apply str_rev_involutive.
Qed.

Lemma unlines_join name names :
  unlines (name :: names) = js_join nl (name :: names) +:+ nl.
Proof.
  revert name. induction names as [|name' names IH]; intros name.
  - simpl. by rewrite str_app_nil_r.
  - change (unlines (name :: name' :: names)) with (name +:+ nl +:+ unlines (name' :: names)).
    rewrite IH, js_join_cons. by rewrite !str_app_assoc.
Qed.

(** The joined names begin like the first and end like the last of
    them. *)
Lemma js_join_clean name names :
  Forall (fun n => clean_name n = true) (name :: names) ->
  js_join nl (name :: names) <> ""
  /\ starts_with_space (js_join nl (name :: names)) = false
  /\ starts_with_space (String.rev (js_join nl (name :: names))) = false.
Proof.
  revert name. induction names as [|name' names IH]; intros name Hall.
  - apply Forall_cons in Hall as [Hname _].
    apply clean_name_inv in Hname as (? & _ & ? & ?). done.
  - apply Forall_cons in Hall as [Hname Hrest].
    apply clean_name_inv in Hname as (Hne & _ & Hstart & _).
    destruct (IH name' Hrest) as (Hne' & _ & Hend').
    rewrite js_join_cons. split; [by apply str_app_nonempty|].
    split; [by rewrite starts_with_space_app|].
    rewrite <- str_app_assoc, str_rev_app.
    rewrite starts_with_space_app by (by apply str_rev_nonempty). done.
Qed.

Lemma js_split_join names name :
  Forall (fun n => clean_name n = true) (name :: names) ->
  js_split "010"%char (js_join nl (name :: names)) = name :: names.
Proof.
  revert name. induction names as [|name' names IH]; intros name Hall.
  - apply Forall_cons in Hall as [Hname _].
    apply clean_name_inv in Hname as (_ & Hlf & _). simpl. by apply js_split_no_sep.
  - apply Forall_cons in Hall as [Hname Hrest].
    apply clean_name_inv in Hname as (_ & Hlf & _).
    rewrite js_join_cons.
    change (nl +:+ js_join nl (name' :: names))
      with (String "010"%char (js_join nl (name' :: names))).
    rewrite js_split_app_sep, (js_split_no_sep _ _ Hlf), (IH name' Hrest). done.
Qed.

Lemma filter_nonempty_clean names :
  Forall (fun n => clean_name n = true) names -> List.filter nonempty names = names.
Proof.
  induction 1 as [|name names Hname _ IH]; [done|].
  apply clean_name_inv in Hname as (Hne & _).
  change (List.filter nonempty (name :: names))
    with (if nonempty name then name :: List.filter nonempty names
          else List.filter nonempty names).
  rewrite IH. unfold nonempty, str_truthy.
  by destruct (String.eqb_spec name "").
Qed.

(** X6. Round trip between what [git diff --name-only] prints and what
    [getChangedFiles] reads: for names that are not empty, hold no line
    feed and neither begin nor end with white space, printing each on a
    line of its own and parsing the output gives back the names, in
    order; for no name at all, the empty output gives the empty list. *)
Theorem parse_changed_unlines (names : list string) :
  Forall (fun n => clean_name n = true) names ->
  parse_changed (unlines names) = names.
Proof.
  intros Hall. destruct names as [|name names]; [reflexivity|].
  unfold parse_changed. rewrite unlines_join.
  destruct (js_join_clean name names Hall) as (Hne & Hstart & Hend).
  rewrite (js_trim_line _ Hne Hstart Hend), (js_split_join _ _ Hall).
  by apply filter_nonempty_clean.
Qed.

Lemma parse_changed_unlines_witness :
  Forall (fun n => clean_name n = true) ["src/app.js"; "docs/read me.md"; ".github/ci.yml"]
  /\ parse_changed (unlines ["src/app.js"; "docs/read me.md"; ".github/ci.yml"])
     = ["src/app.js"; "docs/read me.md"; ".github/ci.yml"].
Proof.
  assert (Forall (fun n => clean_name n = true)
            ["src/app.js"; "docs/read me.md"; ".github/ci.yml"]) as Hall.
  { repeat constructor. }
  split; [exact Hall|].
  apply (parse_changed_unlines ["src/app.js"; "docs/read me.md"; ".github/ci.yml"] Hall).
Defined.

(** No name [getChangedFiles] reads is empty or holds a line feed. *)
Lemma js_split_pieces c s piece : piece ∈ js_split c s -> has_char c piece = false.
Proof.
  revert piece. induction s as [|a s IH]; intros piece; simpl.
  - intros Hin. apply list_elem_of_singleton in Hin as ->. done.
  - destruct (Ascii.eqb a c) eqn:Hac.
    + intros Hin. apply elem_of_cons in Hin as [->|Hin]; [done | by apply IH].
    + destruct (js_split c s) as [|p ps] eqn:Hs; [by apply js_split_nonempty in Hs|].
      intros Hin. apply elem_of_cons in Hin as [->|Hin].
      * simpl. rewrite Hac. apply IH. apply list_elem_of_here.
      * apply IH. by apply list_elem_of_further.
Qed.

(** X7. [getChangedFiles] never throws, and whatever [git] prints, the set
    it returns holds no empty name and no name with a line feed in it. *)
Theorem changed_files_names (w : World) (st : State) :
  exists changed,
    fst (getChangedFiles w st) = Returns changed
    /\ forall name, name ∈ changed -> name <> "" /\ has_char "010"%char name = false.
Proof.
  rewrite getChangedFiles_run. simpl. eexists. split; [reflexivity|].
  intros name. unfold changed_files.
  destruct (git_diff w) as [output|message]; [|by intros ?%not_elem_of_empty].
  rewrite elem_of_list_to_set. unfold parse_changed.
  rewrite list_elem_of_In, filter_In, <- list_elem_of_In. intros [Hin Hne]. split.
  - intros ->. discriminate.
  - by apply js_split_pieces in Hin.
Qed.

Lemma changed_files_names_witness :
  exists changed,
    fst (getChangedFiles demo_world demo_state) = Returns changed
    /\ "README.md" ∈ changed
    /\ "README.md" <> "" /\ has_char "010"%char "README.md" = false.
Proof.
  destruct (changed_files_names demo_world demo_state) as (changed & Hrun & Hnames).
  exists changed. split; [exact Hrun|].
  assert ("README.md" ∈ changed) as Hin.
  { rewrite getChangedFiles_run in Hrun. injection Hrun as <-.
    unfold changed_files, demo_world. cbn [git_diff]. rewrite elem_of_list_to_set.
    apply list_elem_of_In. vm_compute. auto. }
  split; [exact Hin | exact (Hnames _ Hin)].
Defined.

(* ===================================================================== *)
(** ** Selecting without git, and what selecting does *)
(* ===================================================================== *)

Lemma omap_selection_empty fsys (files : list string) :
  omap (selection ∅ fsys) files
  = map (fun file => {| ftp_file := file; ftp_reason := "missing-docs" |})
      (filter (fun file => fsys !! docPath_checked file = None) files).
Proof.
  induction files as [|file files IH]; [done|].
  change (omap (selection ∅ fsys) (file :: files))
    with (match selection ∅ fsys file with
          | Some f => f :: omap (selection ∅ fsys) files
          | None => omap (selection ∅ fsys) files
          end).
  unfold selection at 1.
  rewrite bool_decide_eq_false_2 by apply not_elem_of_empty. simpl.
  destruct (fsys !! docPath_checked file) as [data|] eqn:Hdoc; simpl.
  - rewrite filter_cons_False by congruence. exact IH.
  - rewrite filter_cons_True by done. simpl. f_equal. exact IH.
Qed.

(** X8. When [git] fails, as on a first commit, [getFilesNeedingDocumentation]
    does not fail: with force mode off it selects, in order, exactly the
    source files whose documentation file does not exist, each with
    reason [missing-docs]. *)
Theorem selection_without_git (w : World) (files : list string) (st : State)
    (message : string) :
  forceAll (config w) = false ->
  git_diff w = inr message ->
  fst (getFilesNeedingDocumentation w files st)
  = Returns (map (fun file => {| ftp_file := file; ftp_reason := "missing-docs" |})
               (filter (fun file => fs st !! docPath_checked file = None) files)).
Proof.
  intros Hforce Hgit. unfold getFilesNeedingDocumentation. rewrite Hforce.
  unfold bind. rewrite getChangedFiles_run, select_files_run. simpl.
  unfold changed_files. rewrite Hgit. by rewrite omap_selection_empty.
Qed.

Lemma selection_without_git_witness :
  fst (getFilesNeedingDocumentation first_commit_world (glob_files first_commit_world) demo_state)
  = Returns (map (fun file => {| ftp_file := file; ftp_reason := "missing-docs" |})
               (filter (fun file => fs demo_state !! docPath_checked file = None)
                  (glob_files first_commit_world))).
Proof.
  apply (selection_without_git first_commit_world (glob_files first_commit_world) demo_state
           "Command failed: git diff --name-only HEAD~1 HEAD").
  - reflexivity.
  - reflexivity.
Defined.

(** X9. With force mode off, [getFilesNeedingDocumentation] returns, runs
    [git] once and then [fs.access] once for each source file, on its
    documentation path and in order, and does nothing else: the file
    system is as it was. *)
Theorem selection_effects (w : World) (files : list string) (st : State) :
  forceAll (config w) = false ->
  exists selected st',
    getFilesNeedingDocumentation w files st = (Returns selected, st')
    /\ fs st' = fs st
    /\ events st'
       = events st ++ EvExec "git diff --name-only HEAD~1 HEAD"
                      :: map (fun file => EvAccess (docPath_checked file)) files.
Proof.
  intros Hforce. unfold getFilesNeedingDocumentation. rewrite Hforce.
  unfold bind. rewrite getChangedFiles_run, select_files_run, after_after.
  eexists _, _. split; [reflexivity|]. split; reflexivity.
Qed.

Lemma selection_effects_witness :
  exists selected st',
    getFilesNeedingDocumentation demo_world ["src/app.js"; "done.rb"] demo_state
    = (Returns selected, st')
    /\ fs st' = fs demo_state
    /\ events st'
       = events demo_state ++ EvExec "git diff --name-only HEAD~1 HEAD"
           :: map (fun file => EvAccess (docPath_checked file)) ["src/app.js"; "done.rb"].
Proof.
  apply (selection_effects demo_world ["src/app.js"; "done.rb"] demo_state). reflexivity.
Defined.

(* ===================================================================== *)
(** ** One pass of the processing loop, case by case *)
(* ===================================================================== *)

(** A pass that reaches the service, written out: what it returns and the
    state it leaves, by what the service answers and by whether [mkdir]
    and [writeFile] fail. *)
Lemma process_try_cases w file results st text :
  fs st !! file = Some text -> size_skipped text = false ->
  let req := build_request w file (truncated text) in
  let docPath := docPath_written file in
  let dir := path.dirname docPath in
  process_try w file results st
  = match truthy_text (api_text w req) with
    | None =>
        (Returns (Normal, results ++ [failed_with file "No documentation generated"]),
         after st [EvReadFile file; EvApiCall req])
    | Some doc =>
        match mkdir_error w dir with
        | Some e =>
            (Returns (Normal, results ++ [failed_with file e]),
             after st [EvReadFile file; EvApiCall req; EvMkdir dir])
        | None =>
            match writeFile_error w docPath with
            | Some e =>
                (Returns (Normal, results ++ [failed_with file e]),
                 {| fs := fs st;
                    dirs := dirs st ∪ list_to_set (mkdir_targets dir);
                    events := events st ++ [EvReadFile file; EvApiCall req; EvMkdir dir;
                                            EvWriteFile docPath doc] |})
            | None =>
                (Returns (Normal, results ++ [succeeded file docPath]),
                 {| fs := <[docPath := doc]> (fs st);
                    dirs := dirs st ∪ list_to_set (mkdir_targets dir);
                    events := events st ++ [EvReadFile file; EvApiCall req; EvMkdir dir;
                                            EvWriteFile docPath doc] |})
            end
        end
    end.
Proof.
  intros Hfile Hsize req docPath dir. apply size_skipped_false in Hsize as [Hmin Hmax].
  unfold process_try, fs_readFile. unfold bind at 1. unfold bind at 1. unfold try_catch at 1.
  unfold bind at 1. cbn [emit]. cbn [fs events]. rewrite Hfile, Hmin, Hmax.
  unfold bind at 1. rewrite analyzeCode_run. fold req.
  destruct (truthy_text (api_text w req)) as [doc|].
  - fold docPath. fold dir. unfold fs_mkdir, fs_writeFile. run_monad.
    destruct (mkdir_error w dir) as [e1|]; simpl.
    { by rewrite <- !app_assoc. }
    destruct (writeFile_error w docPath) as [e2|]; simpl; by rewrite <- !app_assoc.
  - run_monad. by rewrite <- !app_assoc.
Qed.

(** The same for a whole pass: a pass that does not [continue] ends with
    the wait. *)
Lemma process_file_cases w file results st :
  process_file w file results st
  = match fs st !! file with
    | None =>
        (Returns (Normal, results ++
           [failed_with file ("ENOENT: no such file or directory, open '" +:+ file +:+ "'")]),
         after st [EvReadFile file; EvSleep 1000])
    | Some text =>
        if size_skipped text then (Returns (Continue, results), after st [EvReadFile file])
        else
          let req := build_request w file (truncated text) in
          let docPath := docPath_written file in
          let dir := path.dirname docPath in
          match truthy_text (api_text w req) with
          | None =>
              (Returns (Normal, results ++ [failed_with file "No documentation generated"]),
               after st [EvReadFile file; EvApiCall req; EvSleep 1000])
          | Some doc =>
              match mkdir_error w dir with
              | Some e =>
                  (Returns (Normal, results ++ [failed_with file e]),
                   after st [EvReadFile file; EvApiCall req; EvMkdir dir; EvSleep 1000])
              | None =>
                  match writeFile_error w docPath with
                  | Some e =>
                      (Returns (Normal, results ++ [failed_with file e]),
                       {| fs := fs st;
                          dirs := dirs st ∪ list_to_set (mkdir_targets dir);
                          events := events st ++ [EvReadFile file; EvApiCall req; EvMkdir dir;
                                                  EvWriteFile docPath doc; EvSleep 1000] |})
                  | None =>
                      (Returns (Normal, results ++ [succeeded file docPath]),
                       {| fs := <[docPath := doc]> (fs st);
                          dirs := dirs st ∪ list_to_set (mkdir_targets dir);
                          events := events st ++ [EvReadFile file; EvApiCall req; EvMkdir dir;
                                                  EvWriteFile docPath doc; EvSleep 1000] |})
                  end
              end
          end
    end.
Proof.
  unfold process_file. unfold bind at 1.
  destruct (fs st !! file) as [text|] eqn:Hfile.
  - destruct (size_skipped text) eqn:Hsize.
    + by rewrite (process_try_skipped _ _ _ _ _ Hfile Hsize).
    + rewrite (process_try_cases _ _ _ _ _ Hfile Hsize). cbv zeta.
      destruct (truthy_text _) as [doc|]; [|unfold sleep; run_monad; by rewrite <- !app_assoc].
      destruct (mkdir_error w _) as [e1|]; [unfold sleep; run_monad; by rewrite <- !app_assoc|].
      destruct (writeFile_error w _) as [e2|]; unfold sleep; run_monad; by rewrite <- !app_assoc.
  - rewrite (process_try_unreadable _ _ _ _ Hfile). unfold sleep. run_monad.
    by rewrite <- !app_assoc.
Qed.

Ltac pass_cases w file results st :=
  rewrite (process_file_cases w file results st); cbv zeta;
  destruct (fs st !! file) as [?text|] eqn:?Hfile;
  [ destruct (size_skipped _) eqn:?Hsize;
    [ | destruct (truthy_text _) as [?doc|] eqn:?Hdoc;
        [ destruct (mkdir_error w _) as [?e|] eqn:?Hmkdir;
          [ | destruct (writeFile_error w _) as [?e|] eqn:?Hwrite ] | ] ] | ].

(* ===================================================================== *)
(** ** The results list *)
(* ===================================================================== *)

Lemma result_shape_failed file message : result_shape (failed_with file message).
Proof. unfold result_shape. simpl. split; [done | by eexists]. Qed.

Lemma result_shape_succeeded file : result_shape (succeeded file (docPath_written file)).
Proof. unfold result_shape. simpl. done. Qed.

Lemma process_file_record w file results st :
  exists c new st',
    process_file w file results st = (Returns (c, results ++ new), st')
    /\ (new = [] \/ exists r, new = [r] /\ res_file r = file /\ result_shape r).
Proof.
  pass_cases w file results st.
  - eexists Continue, [], _. rewrite app_nil_r. split; [reflexivity | by left].
  - eexists Normal, [_], _. split; [reflexivity|]. right. eexists. split; [done|].
    split; [done | apply result_shape_failed].
  - eexists Normal, [_], _. split; [reflexivity|]. right. eexists. split; [done|].
    split; [done | apply result_shape_failed].
  - eexists Normal, [_], _. split; [reflexivity|]. right. eexists. split; [done|].
    split; [done | apply result_shape_succeeded].
  - eexists Normal, [_], _. split; [reflexivity|]. right. eexists. split; [done|].
    split; [done | apply result_shape_failed].
  - eexists Normal, [_], _. split; [reflexivity|]. right. eexists. split; [done|].
    split; [done | apply result_shape_failed].
Qed.

Lemma process_files_log (w : World) (files : list FileToProcess) (results : list Result)
    (st : State) :
  exists new st',
    process_files w files results st = (Returns (results ++ new), st')
    /\ map res_file new `sublist_of` map ftp_file files
    /\ Forall result_shape new.
Proof.
  revert results st. induction files as [|f files IH]; intros results st.
  - exists [], st. simpl. unfold ret. rewrite app_nil_r. repeat split; constructor.
  - simpl. unfold bind.
    destruct (process_file_record w (ftp_file f) results st) as (c & new1 & st1 & -> & Hnew1).
    simpl. destruct (IH (results ++ new1) st1) as (new2 & st2 & -> & Hsub & Hshape).
    exists (new1 ++ new2), st2. rewrite app_assoc. split; [done|].
    destruct Hnew1 as [->|(r & -> & Hfile & Hr)]; simpl.
    + split; [by apply sublist_cons | done].
    + rewrite Hfile. split; [by apply sublist_skip | by constructor].
Qed.

(** X10. The processing loop returns, whatever fails on the way, and treats
    the results list as a log: the records it was given stay in front,
    unchanged; the records it adds are at most one for each file to
    process, in the order of the files, so there are no more of them than
    files and each is the record of one of the files; a record of success
    carries the documentation path of its file and no error, a record of
    failure an error and no path. *)
Theorem results_log (w : World) (files : list FileToProcess) (results : list Result)
    (st : State) :
  exists new st',
    process_files w files results st = (Returns (results ++ new), st')
    /\ map res_file new `sublist_of` map ftp_file files
    /\ (length new <= length files)%nat
    /\ (forall r, r ∈ new -> exists f, f ∈ files /\ res_file r = ftp_file f)
    /\ Forall result_shape new.
Proof.
  destruct (process_files_log w files results st) as (new & st' & Hrun & Hsub & Hshape).
  exists new, st'. split; [exact Hrun|]. split; [exact Hsub|]. split; [|split; [|exact Hshape]].
  - apply sublist_length in Hsub. by rewrite !length_map in Hsub.
  - intros r Hr.
    assert (res_file r ∈ map ftp_file files) as Hin.
    { apply (sublist_subseteq _ _ Hsub). by apply list_elem_of_fmap_2. }
    apply list_elem_of_fmap in Hin as (f & Hf & Hin). eauto.
Qed.

(* ===================================================================== *)
(** ** What a pass writes *)
(* ===================================================================== *)

Lemma process_file_footprint w file results st p :
  p <> docPath_written file ->
  fs (snd (process_file w file results st)) !! p = fs st !! p.
Proof.
  intros Hp. pass_cases w file results st; try reflexivity.
  simpl. by rewrite lookup_insert_ne.
Qed.

(** The processing loop writes no file but at the documentation paths of
    the files it is given: every other path holds after the loop what it
    held before. *)
Theorem loop_footprint (w : World) (files : list FileToProcess) (results : list Result)
    (st : State) (p : string) :
  (forall f, f ∈ files -> p <> docPath_written (ftp_file f)) ->
  fs (snd (process_files w files results st)) !! p = fs st !! p.
Proof.
  revert results st. induction files as [|f files IH]; intros results st Hp; [done|].
  simpl. unfold bind.
  pose proof (process_file_footprint w (ftp_file f) results st p) as Hpass.
  destruct (process_file_record w (ftp_file f) results st) as (c & new & st1 & Hrun & _).
  rewrite Hrun in *. simpl in *.
  rewrite IH.
  - apply Hpass, Hp, list_elem_of_here.
  - intros f' Hf'. by apply Hp, list_elem_of_further.
Qed.

Lemma loop_footprint_witness :
  (forall f, f ∈ [ {| ftp_file := "lib/util.py"; ftp_reason := "missing-docs" |} ] ->
     "lib/util.py" <> docPath_written (ftp_file f))
  /\ fs (snd (process_files demo_world
                [ {| ftp_file := "lib/util.py"; ftp_reason := "missing-docs" |} ] [] demo_state))
       !! "lib/util.py"
     = fs demo_state !! "lib/util.py".
Proof.
  assert (forall f, f ∈ [ {| ftp_file := "lib/util.py"; ftp_reason := "missing-docs" |} ] ->
            "lib/util.py" <> docPath_written (ftp_file f)) as Hp.
  { intros f Hf. apply list_elem_of_singleton in Hf as ->. discriminate. }
  split; [exact Hp|].
  apply (loop_footprint demo_world _ [] demo_state "lib/util.py" Hp).
Defined.

(** X11. A pass in which everything works: the answer of the service is
    written at the documentation path, a record of success is appended,
    and from then on the file counts as documented, so that a later
    selection keeps it only if it is among the changed files. *)
Theorem successful_pass (w : World) (file : string) (results : list Result) (st : State)
    (text doc : string) :
  fs st !! file = Some text ->
  10 <= js_length text <= 200000 ->
  truthy_text (api_text w (build_request w file (truncated text))) = Some doc ->
  mkdir_error w (path.dirname (docPath_written file)) = None ->
  writeFile_error w (docPath_written file) = None ->
  exists st',
    process_file w file results st
    = (Returns (Normal, results ++ [succeeded file (docPath_written file)]), st')
    /\ fs st' !! docPath_checked file = Some doc
    /\ forall changed st'',
         file ∉ changed -> fs st'' = fs st' ->
         fst (select_files changed [file] [] st'') = Returns [].
Proof.
  intros Hfile [Hmin Hmax] Hdoc Hmkdir Hwrite.
  assert (size_skipped text = false) as Hsize.
  { unfold size_skipped, MIN_CONTENT, MAX_CONTENT. apply orb_false_intro; apply N.ltb_ge; lia. }
  rewrite (process_file_cases w file results st). cbv zeta.
  rewrite Hfile, Hsize, Hdoc, Hmkdir, Hwrite.
  eexists. split; [reflexivity|]. cbn [fs].
  assert (<[docPath_written file := doc]> (fs st) !! docPath_checked file = Some doc) as Hnow.
  { apply lookup_insert_eq. }
  split; [exact Hnow|].
  intros changed st'' Hout Hfs. rewrite select_files_run. simpl.
  unfold selection. rewrite Hfs. simpl. rewrite Hnow.
  by rewrite (bool_decide_eq_false_2 _ Hout).
Qed.

Lemma successful_pass_witness :
  exists st',
    process_file demo_world "lib/util.py" [] demo_state
    = (Returns (Normal, [] ++ [succeeded "lib/util.py" (docPath_written "lib/util.py")]), st')
    /\ fs st' !! docPath_checked "lib/util.py" = Some "# Documentation"
    /\ forall changed st'',
         "lib/util.py" ∉ changed -> fs st'' = fs st' ->
         fst (select_files changed ["lib/util.py"] [] st'') = Returns [].
Proof.
  apply (successful_pass demo_world "lib/util.py" [] demo_state "def f(x): return x"
           "# Documentation").
  - reflexivity.
  - vm_compute. split; discriminate.
  - reflexivity.
  - reflexivity.
  - reflexivity.
Defined.

(* ===================================================================== *)
(** ** The wait between requests *)
(* ===================================================================== *)

Lemma spaced_app ready evs evs' :
  spaced ready (evs ++ evs')
  = match spaced ready evs with
    | Some ready' => spaced ready' evs'
    | None => None
    end.
Proof.
  revert ready. induction evs as [|e evs IH]; intros ready; [done|].
  destruct e; simpl; try apply IH.
  destruct ready; [apply IH | done].
Qed.

Lemma keeps_spacing_process_file w file results :
  keeps_spacing (process_file w file results).
Proof.
  intros st. pass_cases w file results st; simpl; eexists; split; try reflexivity; reflexivity.
Qed.

Lemma keeps_spacing_process_files w files results :
  keeps_spacing (process_files w files results).
Proof.
  revert results. induction files as [|f files IH]; intros results st.
  - exists []. simpl. by rewrite app_nil_r.
  - simpl. unfold bind.
    destruct (keeps_spacing_process_file w (ftp_file f) results st) as (evs1 & Hev1 & Hsp1).
    destruct (process_file_record w (ftp_file f) results st) as (c & new & st1 & Hrun & _).
    rewrite Hrun in *. simpl in *.
    destruct (IH (results ++ new) st1) as (evs2 & Hev2 & Hsp2).
    exists (evs1 ++ evs2). split; [by rewrite Hev2, Hev1, app_assoc|].
    by rewrite spaced_app, Hsp1.
Qed.

(** The processing loop never sends two requests without a wait of 1000
    ms between them, and after its last request it has waited too: the
    effects it adds pass the scan [spaced], which starts and ends ready
    for a request. *)
Theorem requests_spaced (w : World) (files : list FileToProcess) (results : list Result)
    (st : State) :
  exists evs,
    events (snd (process_files w files results st)) = events st ++ evs
    /\ spaced true evs = Some true.
Proof. apply keeps_spacing_process_files. Qed.

Example spaced_rejects_back_to_back :
  spaced true [ EvApiCall (build_request demo_world "a.js" "let a = 1;");
                EvApiCall (build_request demo_world "b.js" "let b = 2;") ] = None.
Proof. reflexivity. Qed.

(* ===================================================================== *)
(** ** A whole run *)
(* ===================================================================== *)

Lemma process_files_returns w files results st :
  exists results' st', process_files w files results st = (Returns results', st').
Proof.
  destruct (process_files_log w files results st) as (new & st' & Hrun & _). eauto.
Qed.

(** The files selected are source files, in their order. *)
Lemma selected_sublist w files st :
  exists selected evs,
    getFilesNeedingDocumentation w files st = (Returns selected, after st evs)
    /\ api_calls evs = []
    /\ Forall (fun e => match e with EvExec _ | EvAccess _ => True | _ => False end) evs
    /\ map ftp_file selected `sublist_of` files.
Proof.
  unfold getFilesNeedingDocumentation. destruct (forceAll (config w)).
  - eexists _, []. rewrite after_nil. split; [reflexivity|]. split; [done|]. split; [done|].
    rewrite map_map. simpl. by rewrite map_id.
  - unfold bind. rewrite getChangedFiles_run, select_files_run, after_after.
    eexists _, _. split; [reflexivity|]. split; [|split].
    + simpl. induction files as [|file files IH]; [done|]. exact IH.
    + constructor; [done|]. induction files as [|file files IH]; constructor; done.
    + simpl. rewrite omap_selection_files. apply sublist_filter.
Qed.

(** What is selected depends on the files of the state only. *)
Lemma selected_same_files w files st1 st2 :
  fs st1 = fs st2 ->
  fst (getFilesNeedingDocumentation w files st1)
  = fst (getFilesNeedingDocumentation w files st2).
Proof.
  intros Hfs. unfold getFilesNeedingDocumentation. destruct (forceAll (config w)); [done|].
  unfold bind. rewrite !getChangedFiles_run, !select_files_run. simpl. by rewrite Hfs.
Qed.

Lemma generateDocumentation_run w st :
  mkdir_error w "Documentation" = None ->
  generateDocumentation w st
  = if (length (glob_files w) =? 0)%nat then (Returns tt, started st)
    else
      match getFilesNeedingDocumentation w (glob_files w) (started st) with
      | (Returns selected, st2) =>
          if (length selected =? 0)%nat then (Returns tt, st2)
          else
            match process_files w selected [] st2 with
            | (Returns results, st3) => generateSummary w results st3
            | (Throws e, st3) => (Throws e, st3)
            end
      | (Throws e, st2) => (Throws e, st2)
      end.
Proof.
  intros Hmkdir. unfold generateDocumentation, fs_mkdir, findSourceFiles.
  rewrite Hmkdir. unfold bind, emit, ret, started. simpl. rewrite <- app_assoc. simpl.
  destruct (length (glob_files w) =? 0)%nat; [reflexivity|].
  destruct (getFilesNeedingDocumentation _ _ _) as [[selected|e] st2]; [|reflexivity].
  destruct (length selected =? 0)%nat; [reflexivity|].
  destruct (process_files _ _ _ _) as [[results|e] st3]; reflexivity.
Qed.

Lemma generateDocumentation_no_directory w st e :
  mkdir_error w "Documentation" = Some e ->
  generateDocumentation w st = (Throws e, after st [EvMkdir "Documentation"]).
Proof.
  intros Hmkdir. unfold generateDocumentation, fs_mkdir. by rewrite Hmkdir.
Qed.

Lemma generateSummary_run w results st :
  generateSummary w results st
  = match writeFile_error w "Documentation/SUMMARY.md" with
    | Some e =>
        (Throws e,
         after st [EvWriteFile "Documentation/SUMMARY.md" (summary_text (now_iso w) results)])
    | None =>
        (Returns tt,
         {| fs := <["Documentation/SUMMARY.md" := summary_text (now_iso w) results]> (fs st);
            dirs := dirs st;
            events := events st ++
              [EvWriteFile "Documentation/SUMMARY.md" (summary_text (now_iso w) results)] |})
    end.
Proof.
  unfold generateSummary, fs_writeFile. run_monad.
  by destruct (writeFile_error w "Documentation/SUMMARY.md").
Qed.

Lemma length_zero_nil {A} (l : list A) : (length l =? 0)%nat = true <-> l = [].
Proof. destruct l; simpl; split; congruence. Qed.

(** When the constructor of the client throws: no API key, or neither a
    base URL nor an endpoint, or both. *)
Lemma new_AzureOpenAI_ok environ cfg :
  new_AzureOpenAI environ cfg = None
  <-> given (apiKey cfg) = true
      /\ given (js_trim <$> environ !! "OPENAI_BASE_URL") <> given (endpoint cfg).
Proof.
  unfold new_AzureOpenAI.
  destruct (given (apiKey cfg)), (given (js_trim <$> environ !! "OPENAI_BASE_URL")),
    (given (endpoint cfg)); simpl; split; (try done); intros [? ?]; done.
Qed.

(** A run in which the module loads and the directory is made, in three
    cases: no source file or none selected; some selected. *)
Lemma main_run w st :
  new_AzureOpenAI (environ w) (config w) = None ->
  mkdir_error w "Documentation" = None ->
  exists selected evs,
    getFilesNeedingDocumentation w (glob_files w) (started st)
    = (Returns selected, after (started st) evs)
    /\ fst (getFilesNeedingDocumentation w (glob_files w) st) = Returns selected
    /\ Forall (fun e => match e with EvExec _ | EvAccess _ => True | _ => False end) evs
    /\ map ftp_file selected `sublist_of` glob_files w
    /\ (selected = [] ->
        exists evs', main w st = (0, after (started st) evs')
                     /\ (evs' = [] \/ evs' = evs))
    /\ (selected <> [] ->
        exists results st3,
          process_files w selected [] (after (started st) evs) = (Returns results, st3)
          /\ main w st
             = match writeFile_error w "Documentation/SUMMARY.md" with
               | Some e =>
                   (1, after st3 [EvWriteFile "Documentation/SUMMARY.md"
                                    (summary_text (now_iso w) results)])
               | None =>
                   (0, {| fs := <["Documentation/SUMMARY.md" :=
                                    summary_text (now_iso w) results]> (fs st3);
                          dirs := dirs st3;
                          events := events st3 ++
                            [EvWriteFile "Documentation/SUMMARY.md"
                               (summary_text (now_iso w) results)] |})
               end).
Proof.
  intros Hclient Hmkdir. unfold main. rewrite Hclient.
  rewrite (generateDocumentation_run w st Hmkdir).
  destruct (selected_sublist w (glob_files w) (started st))
    as (selected & evs & Hsel & _ & Hquiet & Hsub).
  exists selected, evs. split; [exact Hsel|]. split.
  { rewrite (selected_same_files w (glob_files w) st (started st)) by done. by rewrite Hsel. }
  split; [exact Hquiet|]. split; [exact Hsub|]. rewrite Hsel. split.
  - intros ->. destruct (length (glob_files w) =? 0)%nat.
    + exists []. rewrite after_nil. split; [done | by left].
    + exists evs. split; [done | by right].
  - intros Hsome.
    destruct (length (glob_files w) =? 0)%nat eqn:Hglob.
    { apply length_zero_nil in Hglob. rewrite Hglob in Hsub.
      apply sublist_nil_r in Hsub. by apply map_eq_nil in Hsub. }
    destruct (length selected =? 0)%nat eqn:Hnone.
    { by apply length_zero_nil in Hnone. }
    destruct (process_files_returns w selected [] (after (started st) evs))
      as (results & st3 & Hrun).
    exists results, st3. split; [exact Hrun|]. rewrite Hrun, generateSummary_run.
    by destruct (writeFile_error w "Documentation/SUMMARY.md").
Qed.

(** X14. The exit code of the script. The process ends with code 1 exactly
    when the constructor of the client throws as the module is loaded
    (which happens without an API key, and without exactly one of a base
    URL and an endpoint), or the [Documentation] directory cannot be made,
    or some file is selected and the summary cannot be written; otherwise
    it ends with code 0. When the constructor throws nothing at all is
    done. No failure of git, of the service, of reading a source file or
    of writing one documentation file changes the exit code. *)
Theorem main_exit_code (w : World) (st : State) :
  (fst (main w st) = 0 \/ fst (main w st) = 1)
  /\ (fst (main w st) = 1 <->
      is_Some (new_AzureOpenAI (environ w) (config w))
      \/ is_Some (mkdir_error w "Documentation")
      \/ (fst (getFilesNeedingDocumentation w (glob_files w) st) <> Returns []
          /\ is_Some (writeFile_error w "Documentation/SUMMARY.md")))
  /\ (is_Some (new_AzureOpenAI (environ w) (config w)) -> snd (main w st) = st)
  /\ (new_AzureOpenAI (environ w) (config w) = None
      <-> given (environ w !! "AZURE_OPENAI_API_KEY") = true
          /\ given (js_trim <$> environ w !! "OPENAI_BASE_URL")
             <> given (environ w !! "AZURE_OPENAI_ENDPOINT")).
Proof.
  split; [|split; [|split]].
  - unfold main. destruct (new_AzureOpenAI _ _); [by right|].
    destruct (generateDocumentation w st) as [[[]|e] st']; [by left | by right].
  - destruct (new_AzureOpenAI (environ w) (config w)) as [e0|] eqn:Hclient.
    { unfold main. rewrite Hclient. simpl. split; [intros _; left; by eexists | done]. }
    destruct (mkdir_error w "Documentation") as [e|] eqn:Hmkdir.
    { unfold main. rewrite Hclient, (generateDocumentation_no_directory w st e Hmkdir).
      simpl. split; [intros _; right; left; by eexists | done]. }
    destruct (main_run w st Hclient Hmkdir)
      as (selected & evs & _ & Hsel & _ & _ & Hnone & Hsome).
    rewrite Hsel. destruct selected as [|f selected].
    + destruct (Hnone eq_refl) as (evs' & -> & _). simpl. split; [done|].
      intros [[? [=]]|[[? [=]]|[Hne _]]]. done.
    + destruct (Hsome ltac:(done)) as (results & st3 & _ & ->).
      destruct (writeFile_error w _) as [e|]; simpl.
      * split; [|done]. intros _. right. right. split; [done | by eexists].
      * split; [done|]. intros [[? [=]]|[[? [=]]|[_ [? [=]]]]].
  - intros [e He]. unfold main. by rewrite He.
  - apply new_AzureOpenAI_ok.
Qed.

Example exit_code_read_only :
  main readonly_world demo_state = (1, after demo_state [EvMkdir "Documentation"]).
Proof. reflexivity. Qed.

Example exit_code_no_key : main no_key_world demo_state = (1, demo_state).
Proof. reflexivity. Qed.

Lemma main_exit_code_witness :
  fst (main readonly_world demo_state) = 1
  /\ fst (main no_key_world demo_state) = 1
  /\ snd (main no_key_world demo_state) = demo_state
  /\ fst (main demo_world demo_state) <> 1.
Proof.
  split; [|split; [|split]].
  - apply (main_exit_code readonly_world demo_state). right. left. by eexists.
  - apply (main_exit_code no_key_world demo_state). left. by eexists.
  - apply (main_exit_code no_key_world demo_state). by eexists.
  - intros Hone. apply (main_exit_code demo_world demo_state) in Hone.
    destruct Hone as [[e He]|[[e He]|[_ [e He]]]]; discriminate.
Defined.

(** X15. When the module loads, the directory is made and no file is
    selected (there is no source file, or every source file is unchanged
    and documented), the run ends with code 0 after making the directory,
    listing the files and selecting: it reads no source file, sends no
    request, waits for nothing and writes no file, not even the summary;
    the files are as they were and the only directory it may have added
    is [Documentation]. *)
Theorem nothing_selected (w : World) (st : State) :
  new_AzureOpenAI (environ w) (config w) = None ->
  mkdir_error w "Documentation" = None ->
  fst (getFilesNeedingDocumentation w (glob_files w) st) = Returns [] ->
  exists evs,
    fst (main w st) = 0
    /\ fs (snd (main w st)) = fs st
    /\ dirs (snd (main w st)) = dirs st ∪ {[ "Documentation" ]}
    /\ events (snd (main w st))
       = events st ++ [EvMkdir "Documentation"; EvGlob glob_patterns] ++ evs
    /\ Forall (fun e => match e with EvExec _ | EvAccess _ => True | _ => False end) evs.
Proof.
  intros Hclient Hmkdir Hnone.
  destruct (main_run w st Hclient Hmkdir)
    as (selected & evs & _ & Hsel & Hquiet & _ & Hempty & _).
  rewrite Hsel in Hnone. injection Hnone as ->.
  destruct (Hempty eq_refl) as (evs' & -> & Hevs'). exists evs'. simpl.
  split; [done|]. split; [done|]. split; [set_solver|].
  split; [by rewrite <- app_assoc|].
  by destruct Hevs' as [->| ->].
Qed.

Lemma nothing_selected_witness :
  exists evs,
    fst (main unchanged_world documented_state) = 0
    /\ fs (snd (main unchanged_world documented_state)) = fs documented_state
    /\ dirs (snd (main unchanged_world documented_state))
       = dirs documented_state ∪ {[ "Documentation" ]}
    /\ events (snd (main unchanged_world documented_state))
       = events documented_state ++ [EvMkdir "Documentation"; EvGlob glob_patterns] ++ evs
    /\ Forall (fun e => match e with EvExec _ | EvAccess _ => True | _ => False end) evs.
Proof.
  apply (nothing_selected unchanged_world documented_state).
  - reflexivity.
  - reflexivity.
  - vm_compute. reflexivity.
Defined.

(** X16. When the module loads, the directory is made, at least one file
    is selected and the summary can be written, the run ends with code 0
    and leaves in [Documentation/SUMMARY.md] the summary of the very
    results list the processing loop returned for the selected files,
    written on top of the state the loop left. The files of that list are
    source files, in the order in which they were found, at most one
    record each, every record of the shape of a success or of a failure.
    This holds also when every selected file is skipped: the summary is
    then the summary of the empty list. *)
Theorem summary_written (w : World) (st : State) :
  new_AzureOpenAI (environ w) (config w) = None ->
  mkdir_error w "Documentation" = None ->
  writeFile_error w "Documentation/SUMMARY.md" = None ->
  fst (getFilesNeedingDocumentation w (glob_files w) st) <> Returns [] ->
  exists selected st2 results st3,
    getFilesNeedingDocumentation w (glob_files w) (started st) = (Returns selected, st2)
    /\ process_files w selected [] st2 = (Returns results, st3)
    /\ fst (main w st) = 0
    /\ fs (snd (main w st))
       = <["Documentation/SUMMARY.md" := summary_text (now_iso w) results]> (fs st3)
    /\ events (snd (main w st))
       = events st3 ++ [EvWriteFile "Documentation/SUMMARY.md"
                          (summary_text (now_iso w) results)]
    /\ map res_file results `sublist_of` glob_files w
    /\ Forall result_shape results.
Proof.
  intros Hclient Hmkdir Hwrite Hsome.
  destruct (main_run w st Hclient Hmkdir)
    as (selected & evs & Hsel & Hfst & _ & Hsub & _ & Hrun).
  rewrite Hfst in Hsome.
  destruct Hrun as (results & st3 & Hloop & Hmain); [congruence|].
  rewrite Hwrite in Hmain.
  destruct (process_files_log w selected [] (after (started st) evs))
    as (new & st3' & Hlog & Hfiles & Hshape).
  rewrite Hloop in Hlog. simpl in Hlog. injection Hlog as Hresults Hst3. subst new st3'.
  exists selected, (after (started st) evs), results, st3. rewrite Hmain. simpl.
  split; [exact Hsel|]. split; [exact Hloop|]. repeat split; try done.
  by etrans.
Qed.

Lemma summary_written_witness :
  exists selected st2 results st3,
    getFilesNeedingDocumentation demo_world (glob_files demo_world) (started demo_state)
    = (Returns selected, st2)
    /\ process_files demo_world selected [] st2 = (Returns results, st3)
    /\ fst (main demo_world demo_state) = 0
    /\ fs (snd (main demo_world demo_state))
       = <["Documentation/SUMMARY.md" := summary_text (now_iso demo_world) results]> (fs st3)
    /\ events (snd (main demo_world demo_state))
       = events st3 ++ [EvWriteFile "Documentation/SUMMARY.md"
                          (summary_text (now_iso demo_world) results)]
    /\ map res_file results `sublist_of` glob_files demo_world
    /\ Forall result_shape results.
Proof.
  apply (summary_written demo_world demo_state).
  - reflexivity.
  - reflexivity.
  - reflexivity.
  - vm_compute. discriminate.
Defined.

(* ===================================================================== *)
(** ** What a whole run touches *)
(* ===================================================================== *)

Lemma process_file_dirs w file results st :
  dirs st ⊆ dirs (snd (process_file w file results st))
  /\ forall d, d ∈ dirs (snd (process_file w file results st)) ->
       d ∈ dirs st \/ d ∈ mkdir_targets (path.dirname (docPath_written file)).
Proof.
  pass_cases w file results st; simpl; split; try done; try set_solver.
Qed.

Lemma process_files_dirs w files results st :
  dirs st ⊆ dirs (snd (process_files w files results st))
  /\ forall d, d ∈ dirs (snd (process_files w files results st)) ->
       d ∈ dirs st
       \/ exists f, f ∈ files /\ d ∈ mkdir_targets (path.dirname (docPath_written (ftp_file f))).
Proof.
  revert results st. induction files as [|f files IH]; intros results st.
  - simpl. split; [done | by left].
  - simpl. unfold bind.
    destruct (process_file_dirs w (ftp_file f) results st) as [Hsub1 Hnew1].
    destruct (process_file_record w (ftp_file f) results st) as (c & new & st1 & Hrun & _).
    rewrite Hrun in *. simpl in *.
    destruct (IH (results ++ new) st1) as [Hsub2 Hnew2]. split; [by etrans|].
    intros d Hd. destruct (Hnew2 d Hd) as [Hd1|(f' & Hf' & Hd')].
    + destruct (Hnew1 d Hd1) as [?|?]; [by left|]. right. exists f. split; [|done].
      apply list_elem_of_here.
    + right. exists f'. split; [by apply list_elem_of_further | done].
Qed.

Lemma started_dirs st d : d ∈ dirs (started st) -> d ∈ dirs st \/ d = "Documentation".
Proof.
  unfold started. cbn [dirs]. intros Hd. apply elem_of_union in Hd as [Hd|Hd]; [by left|].
  right. change (mkdir_targets "Documentation") with ["Documentation"] in Hd.
  apply elem_of_list_to_set in Hd. by apply list_elem_of_singleton in Hd.
Qed.

(** What follows the last dot of a path is determined by the path. *)
Lemma last_extension_unique s1 e1 s2 e2 :
  has_char "." e1 = false -> has_char "." e2 = false ->
  s1 +:+ String "."%char e1 = s2 +:+ String "."%char e2 -> e1 = e2.
Proof.
  intros H1 H2 Heq. apply (f_equal String.rev) in Heq.
  rewrite !str_rev_app, !str_rev_cons, !str_app_assoc in Heq.
  change (String "."%char "" +:+ String.rev s1) with (String "."%char (String.rev s1)) in Heq.
  change (String "."%char "" +:+ String.rev s2) with (String "."%char (String.rev s2)) in Heq.
  apply (f_equal path.span_dot) in Heq.
  rewrite !span_dot_app in Heq by (by rewrite has_char_rev).
  injection Heq as Heq _.
  apply (f_equal String.rev) in Heq. rewrite !str_rev_app, !str_rev_involutive in Heq.
  by injection Heq.
Qed.

(** A path with a recognized extension does not end in [.md]. *)
Lemma source_not_markdown stem ext s :
  ext ∈ extensions -> stem +:+ String "."%char ext <> s +:+ ".md".
Proof.
  intros Hin Heq.
  change (s +:+ ".md") with (s +:+ String "."%char "md") in Heq.
  apply last_extension_unique in Heq; [|by apply extensions_no_dot|done].
  subst ext. apply list_elem_of_In in Hin. simpl in Hin.
  repeat (destruct Hin as [[=]|Hin]). done.
Qed.

(** The documentation path of a source file as [glob] reports them is
    not the path of such a source file. *)
Lemma source_is_no_doc_path p file :
  (exists stem ext, ext ∈ extensions /\ p = stem +:+ "." +:+ ext) ->
  plain_relative file = true ->
  (exists stem ext, ext ∈ extensions /\ file = stem +:+ "." +:+ ext) ->
  p <> docPath_written file.
Proof.
  intros (stem' & ext' & Hin' & ->) Hplain (stem & ext & Hin & ->).
  destruct (doc_path_facts stem ext Hin Hplain) as [_ ->].
  change ("." +:+ ext') with (String "."%char ext').
  rewrite <- str_app_assoc. by apply source_not_markdown.
Qed.

(** X12. What a whole run touches. Among the files it changes nothing but
    the summary and the documentation paths of the source files found;
    when the source files are as [glob] reports them (relative paths
    without empty, [.] or [..] segments, ending in a recognized
    extension), no source file is changed. It removes no directory, and
    the directories it adds are [Documentation] and the directories of
    the documentation paths with the directories above them. This holds
    however the run ends. *)
Theorem run_footprint (w : World) (st : State) :
  (forall p, p <> "Documentation/SUMMARY.md" ->
     (forall file, file ∈ glob_files w -> p <> docPath_written file) ->
     fs (snd (main w st)) !! p = fs st !! p)
  /\ ((forall file, file ∈ glob_files w ->
         plain_relative file = true
         /\ exists stem ext, ext ∈ extensions /\ file = stem +:+ "." +:+ ext) ->
      forall p, p ∈ glob_files w -> fs (snd (main w st)) !! p = fs st !! p)
  /\ dirs st ⊆ dirs (snd (main w st))
  /\ (forall d, d ∈ dirs (snd (main w st)) ->
        d ∈ dirs st \/ d = "Documentation"
        \/ exists file, file ∈ glob_files w
                        /\ d ∈ mkdir_targets (path.dirname (docPath_written file))).
Proof.
  assert (forall p, p <> "Documentation/SUMMARY.md" ->
            (forall file, file ∈ glob_files w -> p <> docPath_written file) ->
            fs (snd (main w st)) !! p = fs st !! p) as Hfiles.
  { intros p Hsummary Hdocs.
    destruct (new_AzureOpenAI (environ w) (config w)) as [e0|] eqn:Hclient.
    { unfold main. by rewrite Hclient. }
    destruct (mkdir_error w "Documentation") as [e|] eqn:Hmkdir.
    { unfold main. by rewrite Hclient, (generateDocumentation_no_directory w st e Hmkdir). }
    destruct (main_run w st Hclient Hmkdir)
      as (selected & evs & _ & _ & _ & Hsub & Hnone & Hsome).
    destruct selected as [|f selected].
    { by destruct (Hnone eq_refl) as (evs' & -> & _). }
    destruct (Hsome ltac:(done)) as (results & st3 & Hloop & ->).
    pose proof (loop_footprint w (f :: selected) [] (after (started st) evs) p) as Hkeep.
    rewrite Hloop in Hkeep. simpl in Hkeep.
    assert (fs st3 !! p = fs st !! p) as Hst3.
    { apply Hkeep. intros f' Hf'. apply Hdocs.
      apply (sublist_subseteq _ _ Hsub). by apply list_elem_of_fmap_2. }
    destruct (writeFile_error w _); simpl; [done|]. by rewrite lookup_insert_ne. }
  split; [exact Hfiles|]. split.
  { intros Hglob p Hp. apply Hfiles.
    - destruct (Hglob p Hp) as [_ (stem & ext & Hin & ->)].
      change ("." +:+ ext) with (String "."%char ext).
      change "Documentation/SUMMARY.md" with ("Documentation/SUMMARY" +:+ ".md").
      by apply source_not_markdown.
    - intros file Hfile. destruct (Hglob p Hp) as [_ Hp'].
      destruct (Hglob file Hfile) as [Hplain Hfile'].
      by apply source_is_no_doc_path. }
  destruct (new_AzureOpenAI (environ w) (config w)) as [e0|] eqn:Hclient.
  { unfold main. rewrite Hclient. simpl. split; [done | by left]. }
  destruct (mkdir_error w "Documentation") as [e|] eqn:Hmkdir.
  { unfold main. rewrite Hclient, (generateDocumentation_no_directory w st e Hmkdir).
    simpl. split; [done | by left]. }
  destruct (main_run w st Hclient Hmkdir)
    as (selected & evs & _ & _ & _ & Hsub & Hnone & Hsome).
  destruct selected as [|f selected].
  { destruct (Hnone eq_refl) as (evs' & -> & _). simpl.
    split; [apply union_subseteq_l|].
    intros d Hd. destruct (started_dirs st d Hd) as [?|?]; [by left | by right; left]. }
  destruct (Hsome ltac:(done)) as (results & st3 & Hloop & ->).
  destruct (process_files_dirs w (f :: selected) [] (after (started st) evs)) as [Hgrow Hnew].
  rewrite Hloop in Hgrow, Hnew. simpl in Hgrow, Hnew.
  assert (dirs (snd (match writeFile_error w "Documentation/SUMMARY.md" with
                     | Some e =>
                         (1, after st3 [EvWriteFile "Documentation/SUMMARY.md"
                                          (summary_text (now_iso w) results)])
                     | None =>
                         (0, {| fs := <["Documentation/SUMMARY.md" :=
                                          summary_text (now_iso w) results]> (fs st3);
                                dirs := dirs st3;
                                events := events st3 ++
                                  [EvWriteFile "Documentation/SUMMARY.md"
                                     (summary_text (now_iso w) results)] |})
                     end)) = dirs st3) as ->.
  { by destruct (writeFile_error w _). }
  split; [etrans; [apply union_subseteq_l | exact Hgrow]|].
  intros d Hd. destruct (Hnew d Hd) as [Hd0|(f' & Hf' & Hd')].
  - destruct (started_dirs st d Hd0) as [?|?]; [by left | by right; left].
  - right. right. exists (ftp_file f'). split; [|done].
    apply (sublist_subseteq _ _ Hsub). by apply list_elem_of_fmap_2.
Qed.

Lemma run_footprint_witness :
  (forall file, file ∈ glob_files demo_world ->
     plain_relative file = true
     /\ exists stem ext, ext ∈ extensions /\ file = stem +:+ "." +:+ ext)
  /\ (forall p, p ∈ glob_files demo_world ->
        fs (snd (main demo_world demo_state)) !! p = fs demo_state !! p)
  /\ dirs demo_state ⊆ dirs (snd (main demo_world demo_state)).
Proof.
  assert (forall file, file ∈ glob_files demo_world ->
            plain_relative file = true
            /\ exists stem ext, ext ∈ extensions /\ file = stem +:+ "." +:+ ext) as Hglob.
  { intros file Hin. apply list_elem_of_In in Hin. simpl in Hin.
    destruct Hin as [<-|[<-|[<-|[<-|[<-|[]]]]]]; (split; [reflexivity|]).
    - exists "src/app", "js". split; [|done]. apply list_elem_of_In. simpl. auto 10.
    - exists "lib/util", "py". split; [|done]. apply list_elem_of_In. simpl. auto 10.
    - exists "tools/sync", "ps1". split; [|done]. apply list_elem_of_In. simpl. auto 10.
    - exists "tiny", "sh". split; [|done]. apply list_elem_of_In. simpl. auto 10.
    - exists "done", "rb". split; [|done]. apply list_elem_of_In. simpl. auto 20. }
  split; [exact Hglob|].
  destruct (run_footprint demo_world demo_state) as (_ & Hsources & Hdirs & _).
  split; [exact (Hsources Hglob) | exact Hdirs].
Defined.

Example demo_run_directories :
  dirs (snd (main demo_world demo_state))
  = {[ "Documentation"; "Documentation/src"; "Documentation/lib" ]}.
Proof. apply set_eq. intros d. vm_compute dirs. set_solver. Qed.

Lemma spaced_quiet evs :
  Forall (fun e => match e with EvExec _ | EvAccess _ => True | _ => False end) evs ->
  spaced true evs = Some true.
Proof.
  induction 1 as [|e evs He _ IH]; [done|]. by destruct e.
Qed.

(** X13. In a whole run, too, no two requests are sent without a wait of
    1000 ms between them. *)
Theorem run_requests_spaced (w : World) (st : State) :
  exists evs,
    events (snd (main w st)) = events st ++ evs /\ spaced true evs <> None.
Proof.
  destruct (new_AzureOpenAI (environ w) (config w)) as [e0|] eqn:Hclient.
  { unfold main. rewrite Hclient. exists []. simpl. by rewrite app_nil_r. }
  destruct (mkdir_error w "Documentation") as [e|] eqn:Hmkdir.
  { unfold main. rewrite Hclient, (generateDocumentation_no_directory w st e Hmkdir).
    by eexists [_]. }
  destruct (main_run w st Hclient Hmkdir)
    as (selected & evs & _ & _ & Hquiet & _ & Hnone & Hsome).
  destruct selected as [|f selected].
  { destruct (Hnone eq_refl) as (evs' & -> & Hevs').
    exists ([EvMkdir "Documentation"; EvGlob glob_patterns] ++ evs'). simpl.
    rewrite <- app_assoc. split; [done|]. simpl.
    destruct Hevs' as [->| ->]; [done|]. by rewrite (spaced_quiet _ Hquiet). }
  destruct (Hsome ltac:(done)) as (results & st3 & Hloop & ->).
  destruct (requests_spaced w (f :: selected) [] (after (started st) evs))
    as (evs2 & Hev2 & Hsp2).
  rewrite Hloop in Hev2. simpl in Hev2.
  exists ([EvMkdir "Documentation"; EvGlob glob_patterns] ++ evs ++ evs2 ++
          [EvWriteFile "Documentation/SUMMARY.md" (summary_text (now_iso w) results)]).
  split.
  - destruct (writeFile_error w "Documentation/SUMMARY.md"); simpl;
      rewrite Hev2, <- !app_assoc; reflexivity.
  - simpl. rewrite spaced_app, (spaced_quiet _ Hquiet). cbv iota.
    rewrite spaced_app, Hsp2. done.
Qed.

(* ===================================================================== *)
(** ** More on the prompt selector *)
(* ===================================================================== *)

(** X17. A selector that names neither an own property of [prompts] nor a
    property inherited from [Object.prototype] gives the very messages the
    selector [api] gives, for every file and code; the default [all], used
    when [DOC_TYPE] is unset or empty, is such a selector. *)
Theorem unknown_selector_same_as_api (selector filePath code : string) :
  selector ∉ own_prompt_keys -> selector ∉ inherited_keys ->
  build_messages selector filePath code = build_messages "api" filePath code.
Proof.
  intros Hown Hinh. unfold build_messages, user_content.
  by rewrite (selected_prompt_fallback selector Hown Hinh).
Qed.

Lemma unknown_selector_same_as_api_witness :
  docType (load_config {[ "DOC_TYPE" := "" ]}) = "all"
  /\ build_messages "all" "src/app.js" "let x = 1;"
     = build_messages "api" "src/app.js" "let x = 1;".
Proof.
  split; [reflexivity|].
  apply (unknown_selector_same_as_api "all" "src/app.js" "let x = 1;").
  - rewrite list_elem_of_In. simpl. intuition discriminate.
  - rewrite list_elem_of_In. simpl. intuition discriminate.
Defined.

(* ===================================================================== *)
(** ** More on Sync-GitRepo *)
(* ===================================================================== *)

Section SyncGitRepoRuns.

Variable host : Host.
Variable RepoPath : string.

Lemma run_block_completes trace block :
  (forall tr c, exists code, host tr c = Completed code) ->
  run_block host trace block = (trace ++ block, None).
Proof.
  intros Hhost. revert trace. induction block as [|c block IH]; intros trace; simpl.
  - by rewrite app_nil_r.
  - assert (exists code, invoke host trace c = Completed code) as [code ->].
    { destruct c; simpl; eauto. }
    rewrite IH. by rewrite <- app_assoc.
Qed.

(** X18. Exit codes are ignored. On a machine where no command raises a
    terminating error, [Sync-GitRepo] runs its whole body, the hard reset
    and the pull included, and ends with the message that the sync is
    complete, whatever the exit codes of [git] are, also when every [git]
    command failed. *)
Theorem Sync_GitRepo_ignores_exit_codes (Branch : option string) :
  (forall tr c, exists code, host tr c = Completed code) ->
  Sync_GitRepo host RepoPath Branch
  = (sync_body RepoPath (default "master" Branch), ReturnsNormally)
  /\ last (fst (Sync_GitRepo host RepoPath Branch))
     = Some (Write_Host "Repository sync complete!" Green).
Proof.
  intros Hhost. unfold Sync_GitRepo, ps_try_catch.
  rewrite (run_block_completes [] _ Hhost). simpl. done.
Qed.

(** X19. When [Set-Location] raises a terminating error, no [git] command is
    run: the call consists of the failed [Set-Location] and the error
    message, and returns normally. *)
Theorem Sync_GitRepo_location_error (Branch : option string) (error : string) :
  host [] (Set_Location RepoPath) = TerminatingError error ->
  Sync_GitRepo host RepoPath Branch
  = ([ Set_Location RepoPath;
       Write_Host ("Error syncing repository: " +:+ error) Red ], ReturnsNormally)
  /\ git_commands (fst (Sync_GitRepo host RepoPath Branch)) = [].
Proof.
  intros Hloc. unfold Sync_GitRepo, ps_try_catch, sync_body. simpl. rewrite Hloc. done.
Qed.

(** X20. The shape of every call: the first [k] of the seven commands that
    come before the closing message of the body, and then exactly one
    message, the green one when no command raised a terminating error and
    otherwise the red one with the error; after an error, the green
    message is not printed. *)
Theorem Sync_GitRepo_shape (Branch : option string) :
  let B := default "master" Branch in
  let error := snd (run_block host [] (sync_body RepoPath B)) in
  let closing :=
    match error with
    | None => Write_Host "Repository sync complete!" Green
    | Some e => Write_Host ("Error syncing repository: " +:+ e) Red
    end in
  (exists k, (k <= 7)%nat
             /\ fst (Sync_GitRepo host RepoPath Branch) = take k (sync_body RepoPath B) ++ [closing])
  /\ (is_Some error ->
      Write_Host "Repository sync complete!" Green ∉ fst (Sync_GitRepo host RepoPath Branch)).
Proof.
  intros B error closing. unfold closing, error, Sync_GitRepo, ps_try_catch. fold B.
  unfold sync_body. simpl.
  destruct (host [] (Set_Location RepoPath)) as [c0|e0]; simpl.
  2: { split; [exists 1%nat; split; [lia | done]|]. intros _.
       rewrite list_elem_of_In. simpl. intuition discriminate. }
  destruct (host _ (git ["fetch"; "origin"])) as [c1|e1]; simpl.
  2: { split; [exists 3%nat; split; [lia | done]|]. intros _.
       rewrite list_elem_of_In. simpl. intuition discriminate. }
  destruct (host _ (git ["reset"; "--hard"; "origin/" +:+ B])) as [c2|e2]; simpl.
  2: { split; [exists 5%nat; split; [lia | done]|]. intros _.
       rewrite list_elem_of_In. simpl. intuition discriminate. }
  destruct (host _ (git ["pull"; "origin"; B])) as [c3|e3]; simpl.
  2: { split; [exists 7%nat; split; [lia | done]|]. intros _.
       rewrite list_elem_of_In. simpl. intuition discriminate. }
  split; [exists 7%nat; split; [lia | done]|]. intros [? [=]].
Qed.

End SyncGitRepoRuns.

Lemma Sync_GitRepo_ignores_exit_codes_witness :
  (forall tr c, exists code, failing_git_host tr c = Completed code)
  /\ Sync_GitRepo failing_git_host "C:\repo" (Some "main")
     = (sync_body "C:\repo" "main", ReturnsNormally)
  /\ last (fst (Sync_GitRepo failing_git_host "C:\repo" (Some "main")))
     = Some (Write_Host "Repository sync complete!" Green).
Proof.
  assert (forall tr c, exists code, failing_git_host tr c = Completed code) as Hhost.
  { intros tr c. destruct c; simpl; eauto. }
  split; [exact Hhost|].
  apply (Sync_GitRepo_ignores_exit_codes failing_git_host "C:\repo" (Some "main") Hhost).
Defined.

Lemma Sync_GitRepo_location_error_witness :
  no_location_host [] (Set_Location "Z:\gone") = TerminatingError "Cannot find drive."
  /\ Sync_GitRepo no_location_host "Z:\gone" None
     = ([ Set_Location "Z:\gone";
          Write_Host ("Error syncing repository: " +:+ "Cannot find drive.") Red ],
        ReturnsNormally)
  /\ git_commands (fst (Sync_GitRepo no_location_host "Z:\gone" None)) = [].
Proof.
  split; [reflexivity|].
  apply (Sync_GitRepo_location_error no_location_host "Z:\gone" None "Cannot find drive.").
  reflexivity.
Defined.

Lemma Sync_GitRepo_shape_witness :
  is_Some (snd (run_block no_git_host [] (sync_body "C:\repo" "master")))
  /\ Write_Host "Repository sync complete!" Green ∉ fst (Sync_GitRepo no_git_host "C:\repo" None).
Proof.
  assert (is_Some (snd (run_block no_git_host [] (sync_body "C:\repo" "master")))) as Herr.
  { by eexists. }
  split; [exact Herr|].
  apply (Sync_GitRepo_shape no_git_host "C:\repo" None). exact Herr.
Defined.

(* ===================================================================== *)
(** ** The configuration *)
(* ===================================================================== *)

Lemma env_or_truthy environ name fallback :
  str_truthy fallback = true -> str_truthy (env_or environ name fallback) = true.
Proof.
  intros Hfb. unfold env_or.
  destruct (environ !! name) as [v|]; [|done].
  by destruct (str_truthy v) eqn:Hv.
Qed.

Lemma env_or_unset environ name fallback :
  environ !! name = None \/ environ !! name = Some "" ->
  env_or environ name fallback = fallback.
Proof. unfold env_or. by intros [->| ->]. Qed.

(** X21. The defaults of the configuration. The model name of a request
    and the documentation selector are never empty: a variable that is
    unset or set to the empty string gives [gpt-4], respectively [all],
    and any other value is taken as it is. Force mode is on for
    [FORCE_ALL] equal to [true] and for no other value. *)
Theorem config_defaults (w : World) (filePath code : string) :
  model (build_request w filePath code) <> ""
  /\ docType (config w) <> ""
  /\ (environ w !! "AZURE_OPENAI_DEPLOYMENT" = None
      \/ environ w !! "AZURE_OPENAI_DEPLOYMENT" = Some "" ->
      model (build_request w filePath code) = "gpt-4")
  /\ (environ w !! "DOC_TYPE" = None \/ environ w !! "DOC_TYPE" = Some "" ->
      docType (config w) = "all")
  /\ (forall v, v <> "" -> environ w !! "DOC_TYPE" = Some v -> docType (config w) = v)
  /\ (forceAll (config w) = true <-> environ w !! "FORCE_ALL" = Some "true").
Proof.
  unfold build_request, config, load_config. cbn [model docType forceAll deployment].
  split; [|split; [|split; [|split; [|split]]]].
  - pose proof (env_or_truthy (environ w) "AZURE_OPENAI_DEPLOYMENT" "gpt-4" eq_refl) as Ht.
    intros Heq. rewrite Heq in Ht. discriminate.
  - pose proof (env_or_truthy (environ w) "DOC_TYPE" "all" eq_refl) as Ht.
    intros Heq. rewrite Heq in Ht. discriminate.
  - apply env_or_unset.
  - apply env_or_unset.
  - intros v Hv Hset. unfold env_or. rewrite Hset. unfold str_truthy.
    by destruct (String.eqb_spec v "").
  - apply bool_decide_eq_true.
Qed.

Lemma config_defaults_witness :
  (environ demo_world !! "DOC_TYPE" = None \/ environ demo_world !! "DOC_TYPE" = Some "")
  /\ docType (config demo_world) = "all"
  /\ model (build_request demo_world "src/app.js" "let x = 1;") = "gpt-4"
  /\ forceAll (config forced_world) = true.
Proof.
  destruct (config_defaults demo_world "src/app.js" "let x = 1;")
    as (_ & _ & Hmodel & Hdoc & _ & _).
  destruct (config_defaults forced_world "src/app.js" "let x = 1;")
    as (_ & _ & _ & _ & _ & Hforce).
  split; [by left|]. split; [apply Hdoc; by left|]. split; [apply Hmodel; by left|].
  apply Hforce. reflexivity.
Defined.
